(** * UMSItony/workshops: mediation simulation and NHANES blood-pressure reshaping

    Two notebooks are embedded here.

    - [Mediation]: the simulated mediation analysis ([gendat], [fake_mediation]).
      Floating-point columns are modelled as lists of real numbers; numpy's
      global random generator is modelled as a stream of draws together with
      the number of draws consumed, threaded through a small state monad; the
      least-squares solver of statsmodels is a parameter.
    - [Nhanes]: the wide-to-long reshaping of the blood-pressure survey table
      (melt, sort, complete-case filter, derived columns, per-subject mean of the
      diastolic readings joined back, truncation to 5000 rows) and the data
      handed to each of the eleven models.  Measurements are rationals, a
      missing value (NaN) is [None]. *)

From Stdlib Require Import ZArith QArith Reals Lia Psatz.
From Stdlib Require Import List String Ascii Permutation Sorted Mergesort Orders.
From stdpp Require Import gmap pretty.
Import ListNotations.

(** ** Part I: the mediation notebook *)

Module Mediation.

Local Open Scope R_scope.

(** *** The random source

    [np.random.seed] fixes the whole stream of later draws; every call of
    [np.random.normal(size=k)] returns the next [k] values and advances the
    generator. *)

Record RandomState := mkRandomState {
  draws : nat -> R;
  consumed : nat
}.

Definition Rand (A : Type) : Type := RandomState -> A * RandomState.

Definition ret {A} (a : A) : Rand A := fun g => (a, g).

Definition bind {A B} (c : Rand A) (k : A -> Rand B) : Rand B :=
  fun g => let (a, g') := c g in k a g'.

Notation "'let*' x ':=' c 'in' k" := (bind c (fun x => k))
  (at level 10, x name, c at level 100, k at level 200).

(** [np.random.normal(size=size)] *)
Definition normal (size : nat) : Rand (list R) :=
  fun g =>
    (map (draws g) (seq (consumed g) size),
     mkRandomState (draws g) (consumed g + size)).

(** *** numpy element-wise arithmetic on equally long one-dimensional arrays *)

Definition vadd (u v : list R) : list R := zip_with Rplus u v.
Definition vsub (u v : list R) : list R := zip_with Rminus u v.
Definition vscale (c : R) (v : list R) : list R := map (Rmult c) v.
Definition vdiv (v : list R) (c : R) : list R := map (fun a => a / c) v.

Definition np_sum (v : list R) : R := fold_right Rplus 0 v.

(** [np.mean]: the sum over the number of elements. *)
Definition np_mean (v : list R) : R := np_sum v / INR (length v).

(** [np.std] with its default [ddof=0]: the square root of the mean of the
    squared deviations from the mean. *)
Definition np_std (v : list R) : R :=
  sqrt (np_mean (map (fun a => (a - np_mean v) * (a - np_mean v)) v)).

(** *** The data frame with the three columns x, m, y *)

Record DataFrame := mkDataFrame {
  col_x : list R;
  col_m : list R;
  col_y : list R
}.

(** [df.x = c] and [df["x"] = c]: a scalar is broadcast over all rows. *)
Definition set_x_scalar (df : DataFrame) (c : R) : DataFrame :=
  mkDataFrame (repeat c (length (col_x df))) (col_m df) (col_y df).

(** [df["m"] = v] for a series carrying the frame's own index. *)
Definition set_m (df : DataFrame) (v : list R) : DataFrame :=
  mkDataFrame (col_x df) v (col_y df).

(** *** Ordinary least squares, as far as the notebook relies on it

    The two formulas that are fitted, the regressors each one builds from a row
    (the intercept first), and a fitted model: the formula, the coefficient
    vector and the estimated residual variance ([scale]). *)

Inductive formula := m_on_x | y_on_x_m.

Definition design (f : formula) (xi mi : R) : list R :=
  match f with
  | m_on_x => [1; xi]
  | y_on_x_m => [1; xi; mi]
  end.

Record OLSResults := mkOLSResults {
  model_formula : formula;
  params : list R;
  scale : R
}.

Definition dot (u v : list R) : R := np_sum (zip_with Rmult u v).

(** The fitted value for one row: coefficients times regressors. *)
Definition linear_predictor (res : OLSResults) (xi mi : R) : R :=
  dot (params res) (design (model_formula res) xi mi).

(** [result.predict(exog=df)]: the linear predictor on the rows of [df]. *)
Definition predict (res : OLSResults) (exog : DataFrame) : list R :=
  zip_with (linear_predictor res) (col_x exog) (col_m exog).

Section Simulation.

(** The global sample size ([n = 400] in the notebook). *)
Variable n : nat.

(** The least-squares solver of statsmodels: coefficients and residual
    variance for a formula and a data frame. *)
Variable solver : formula -> DataFrame -> list R * R.

(** [sm.OLS.from_formula(f, data=df).fit()] *)
Definition from_formula_fit (f : formula) (df : DataFrame) : OLSResults :=
  mkOLSResults f (fst (solver f df)) (snd (solver f df)).

Definition gendat (mode : Z) : Rand DataFrame :=
  (* The exposure *)
  let* x := normal n in
  (* The mediator *)
  let* e := normal n in
  let m := vadd x e in
  let m := vdiv m (sqrt 2) in
  let* y :=
    (if (mode =? 0)%Z then
       (* No mediation *)
       let* z := normal n in ret (vadd x z)
     else if (mode =? 1)%Z then
       (* Full mediation *)
       let* z := normal n in ret (vadd m z)
     else
       (* Partial mediation *)
       let* z := normal n in ret (vadd (vadd m x) z)) in
  ret (mkDataFrame x m y).

Definition fake_mediation (mode : Z) : Rand (R * R * R * R) :=
  let* df := gendat mode in
  let m_model := from_formula_fit m_on_x df in
  let o_model := from_formula_fit y_on_x_m df in
  (* counterfactual mediator values, exposure forced low *)
  let df_xlow := set_x_scalar df 0 in
  let m_xlow := predict m_model df_xlow in
  let* z := normal n in
  let m_xlow := vadd m_xlow (vscale (sqrt (scale m_model)) z) in
  (* counterfactual mediator values, exposure forced high *)
  let df_xhigh := set_x_scalar df 1 in
  let m_xhigh := predict m_model df_xhigh in
  let* z := normal n in
  let m_xhigh := vadd m_xhigh (vscale (sqrt (scale m_model)) z) in
  (* counterfactual outcomes for the indirect effect *)
  let df0 := df in
  let df0 := set_x_scalar df0 0 in
  let df0 := set_m df0 m_xlow in
  let y_low := predict o_model df0 in
  let* z := normal n in
  let y_low := vadd y_low (vscale (sqrt (scale o_model)) z) in
  let df0 := set_x_scalar df0 0 in
  let df0 := set_m df0 m_xhigh in
  let y_high := predict o_model df0 in
  let* z := normal n in
  let y_high := vadd y_high (vscale (sqrt (scale o_model)) z) in
  (* the average indirect effect *)
  let aie := np_mean (vsub y_high y_low) in
  let aie_se := np_std (vsub y_high y_low) / sqrt (INR n) in
  (* counterfactual outcomes for the direct effect *)
  let df0 := df in
  let df0 := set_x_scalar df0 0 in
  let df0 := set_m df0 m_xlow in
  let y_low := predict o_model df0 in
  let* z := normal n in
  let y_low := vadd y_low (vscale (sqrt (scale o_model)) z) in
  let df0 := set_x_scalar df0 1 in
  let y_high := predict o_model df0 in
  let* z := normal n in
  let y_high := vadd y_high (vscale (sqrt (scale o_model)) z) in
  (* the average direct effect *)
  let ade := np_mean (vsub y_high y_low) in
  let ade_se := np_std (vsub y_high y_low) / sqrt (INR n) in
  ret (aie, aie_se, ade, ade_se).

(** [for mode in modes: body(mode)], collecting what each pass yields. *)
Fixpoint for_each {A} (modes : list Z) (body : Z -> Rand A) : Rand (list A) :=
  match modes with
  | [] => ret []
  | mode :: rest =>
      let* a := body mode in
      let* others := for_each rest body in
      ret (a :: others)
  end.

(** The loop that runs the simplified analysis for the modes 0, 1, 2 and
    prints the four numbers of each run; the printed tuples, in order. *)
Definition run_fake_mediation : Rand (list (R * R * R * R)) :=
  for_each [0; 1; 2]%Z fake_mediation.

End Simulation.

End Mediation.

(** ** Part II: the NHANES blood-pressure notebook *)

Module Nhanes.

(** *** The wide table

    One row per subject of the merged survey extracts.  [SEQN] is the merge key
    and is never missing; every other column is a float that may be NaN. *)

Record wide_row := mkWide {
  df_SEQN : Z;
  df_RIDAGEYR : option Q;
  df_RIAGENDR : option Q;
  df_BMXBMI : option Q;
  BPXSY1 : option Q;
  BPXSY2 : option Q;
  BPXSY3 : option Q;
  BPXSY4 : option Q;
  BPXDI1 : option Q;
  BPXDI2 : option Q;
  BPXDI3 : option Q;
  BPXDI4 : option Q
}.

(** [df[c]] at one row, for the measurement columns. *)
Definition column (c : string) (w : wide_row) : option Q :=
  if String.eqb c "BPXSY1" then BPXSY1 w
  else if String.eqb c "BPXSY2" then BPXSY2 w
  else if String.eqb c "BPXSY3" then BPXSY3 w
  else if String.eqb c "BPXSY4" then BPXSY4 w
  else if String.eqb c "BPXDI1" then BPXDI1 w
  else if String.eqb c "BPXDI2" then BPXDI2 w
  else if String.eqb c "BPXDI3" then BPXDI3 w
  else if String.eqb c "BPXDI4" then BPXDI4 w
  else None.

Definition syvars : list string := map (fun j : Z => "BPXSY" +:+ pretty j) [1; 2; 3; 4]%Z.
Definition divars : list string := map (fun j : Z => "BPXDI" +:+ pretty j) [1; 2; 3; 4]%Z.
Definition vvars : list string := syvars ++ divars.

(** *** The long table produced by [pd.melt] *)

Record long_row := mkLong {
  SEQN : Z;
  RIDAGEYR : option Q;
  RIAGENDR : option Q;
  BMXBMI : option Q;
  bpvar : string;
  bp : option Q
}.

(** [pd.melt(df, id_vars=idvars, value_vars=vvars, var_name='bpvar',
    value_name='bp')] builds its columns separately: the identifier columns
    are tiled once per melted column, the variable column repeats each column
    name once per input row, and the value column is the column-major
    flattening of the melted columns. *)
Definition melt (df : list wide_row) : list long_row :=
  let N := length df in
  let K := length vvars in
  let ids := concat (repeat df K) in
  let vars := flat_map (fun c => repeat c N) vvars in
  let vals := flat_map (fun c => map (column c) df) vvars in
  zip_with (fun w cv => mkLong (df_SEQN w) (df_RIDAGEYR w) (df_RIAGENDR w)
                                (df_BMXBMI w) (fst cv) (snd cv))
           ids (zip vars vals).

(** [dx.dropna()]: keep the rows without any missing entry. *)
Definition notna (r : long_row) : bool :=
  match RIDAGEYR r, RIAGENDR r, BMXBMI r, bp r with
  | Some _, Some _, Some _, Some _ => true
  | _, _, _, _ => false
  end.

Definition dropna (dx : list long_row) : list long_row := List.filter notna dx.

(** *** Derived columns *)

Record dx_row := mkDx {
  base :> long_row;
  bpt : string;
  bpi : Z;
  female : Z
}.

(** [int(s[5])] for the digit that ends a measurement column name. *)
Definition digit_at_5 (s : string) : Z :=
  match String.get 5 s with
  | Some c => Z.of_nat (nat_of_ascii c) - 48
  | None => 0
  end.

(** [col == v] on a float entry; NaN compares unequal to everything. *)
Definition is_value (o : option Q) (v : Q) : bool :=
  match o with
  | Some a => Qeq_bool a v
  | None => false
  end.

(** [bpt = bpvar.str[3:5]], [bpi = int(bpvar.str[5])],
    [female = int(RIAGENDR == 2)]. *)
Definition add_derived (r : long_row) : dx_row :=
  mkDx r (String.substring 3 2 (bpvar r)) (digit_at_5 (bpvar r))
       (if is_value (RIAGENDR r) 2 then 1 else 0)%Z.

(** [dx.loc[dx.bpt == t, :]] *)
Definition loc_bpt {A : Type} (col : A -> string) (t : string) (dx : list A) : list A :=
  List.filter (fun r => String.eqb (col r) t) dx.

(** *** Per-subject mean of the diastolic readings

    [groupby("SEQN")["bp"].aggregate(np.mean)]: one pass over the rows keeps,
    per key, the running sum and count of the non-missing values; the result
    is a series indexed by subject id.  The notebook groups rows that have
    passed [dropna], so every value is present.  (On a table with a key all
    of whose values are missing pandas keeps the key with a missing mean; the
    series below has no entry for such a key.) *)
Definition group_add (acc : gmap Z (Q * nat)) (r : dx_row) : gmap Z (Q * nat) :=
  match bp r with
  | Some v =>
      match acc !! SEQN r with
      | Some (s, k) => <[SEQN r := (Qplus s v, S k)]> acc
      | None => <[SEQN r := (v, 1%nat)]> acc
      end
  | None => acc
  end.

Definition groupby_SEQN_bp_mean (rows : list dx_row) : gmap Z Q :=
  (fun sk : Q * nat => Qdiv (fst sk) (inject_Z (Z.of_nat (snd sk))))
    <$> foldl group_add ∅ rows.

Record dxm_row := mkDxm {
  obs :> dx_row;
  di_mean : Q
}.

(** [pd.merge(dx, di_mean, left_on="SEQN", right_index=True)]: an inner join
    (the default) in the order of the left rows; the right side has one entry
    per key.  The result replaces [dx]. *)
Definition merge_di_mean (dx : list dx_row) (means : gmap Z Q) : list dxm_row :=
  omap (fun r => mkDxm r <$> means !! SEQN r) dx.

(** [dx.iloc[0:5000, :]] *)
Definition iloc_0_5000 {A : Type} (dx : list A) : list A := take 5000 dx.

(** The eleven models of the notebook and the frame each one is given:
    [dx] itself, its systolic rows [ds2] (models 2 and 3) or its diastolic
    rows [ds3] (models 4 to 6).  Only the formula of [model3] mentions
    [di_mean].  The indicator columns added later ([bpi_cen], [sy], [di],
    [sy1] ... [di3]) are computed row by row from [bpi], [bpt] and [bpvar];
    they add no rows and remove none and are defined further down. *)
Inductive model_id :=
  | model1 | model2 | model3 | model4 | model5 | model6
  | model7 | model8 | model9 | model10 | model11.

Definition frame_of (k : model_id) (dx : list dxm_row) : list dxm_row :=
  match k with
  | model2 | model3 => loc_bpt (fun r : dxm_row => bpt r) "SY" dx
  | model4 | model5 | model6 => loc_bpt (fun r : dxm_row => bpt r) "DI" dx
  | _ => dx
  end.

(** The intraclass correlation [cov_re / (cov_re + scale)], element-wise on the
    random-effects covariance matrix, and the entry [.values.flat[0]] that is
    printed. *)
Definition icc (cov_re : list (list Q)) (scale : Q) : list (list Q) :=
  map (map (fun v => Qdiv v (Qplus v scale))) cov_re.

Definition flat_0 (mat : list (list Q)) : option Q := head (concat mat).

(** *** The three survey extracts and their merge

    Only the columns the notebook goes on to use are kept.  [pd.merge] on
    [SEQN] is an inner join: one output row per pair of a left and a right
    row with the same key.  The pairs are listed left row by left row, which
    is the order pandas produces when the left keys are distinct, as subject
    ids are within one extract.  (When a left key repeats, pandas may list
    the pairs key group by key group; the rows are the same, their order need
    not be.) *)

Record demog_row := mkDemog {
  demog_SEQN : Z;
  demog_RIDAGEYR : option Q;
  demog_RIAGENDR : option Q
}.

Record bpx_row := mkBpx {
  bpx_SEQN : Z;
  bpx_SY1 : option Q;
  bpx_SY2 : option Q;
  bpx_SY3 : option Q;
  bpx_SY4 : option Q;
  bpx_DI1 : option Q;
  bpx_DI2 : option Q;
  bpx_DI3 : option Q;
  bpx_DI4 : option Q
}.

Record bmx_row := mkBmx {
  bmx_SEQN : Z;
  bmx_BMXBMI : option Q
}.

Definition merge_inner {A B : Type} (left_on : A -> Z) (right_on : B -> Z)
    (left : list A) (right : list B) : list (A * B) :=
  flat_map (fun a => map (pair a)
                         (List.filter (fun b => (right_on b =? left_on a)%Z) right))
           left.

Definition wide_of (t : demog_row * bpx_row * bmx_row) : wide_row :=
  let '(d, b, m) := t in
  mkWide (demog_SEQN d) (demog_RIDAGEYR d) (demog_RIAGENDR d) (bmx_BMXBMI m)
         (bpx_SY1 b) (bpx_SY2 b) (bpx_SY3 b) (bpx_SY4 b)
         (bpx_DI1 b) (bpx_DI2 b) (bpx_DI3 b) (bpx_DI4 b).

(** [df = pd.merge(demog, bpx, ...)] followed by [df = pd.merge(df, bmx, ...)]. *)
Definition merge_extracts (demog : list demog_row) (bpx : list bpx_row)
    (bmx : list bmx_row) : list wide_row :=
  let df := merge_inner demog_SEQN bpx_SEQN demog bpx in
  let df := merge_inner (fun t : demog_row * bpx_row => demog_SEQN (fst t))
                        bmx_SEQN df bmx in
  map wide_of df.

(** *** Columns added for the later models

    [(cond).astype(np.int)], the centred index of model 6, the type
    indicators of model 9 and the per-reading indicators of models 10 and
    11. *)

Definition astype_int (b : bool) : Z := if b then 1%Z else 0%Z.

Definition bpi_cen (r : dx_row) : Z := (bpi r - 1)%Z.

Definition sy (r : dx_row) : Z := astype_int (String.eqb (bpt r) "SY").
Definition di (r : dx_row) : Z := astype_int (String.eqb (bpt r) "DI").

Definition sy1 (r : dx_row) : Z := astype_int (String.eqb (bpvar r) "BPXSY1").
Definition sy2 (r : dx_row) : Z := astype_int (String.eqb (bpvar r) "BPXSY2").
Definition sy3 (r : dx_row) : Z := astype_int (String.eqb (bpvar r) "BPXSY3").
Definition di1 (r : dx_row) : Z := astype_int (String.eqb (bpvar r) "BPXDI1").
Definition di2 (r : dx_row) : Z := astype_int (String.eqb (bpvar r) "BPXDI2").
Definition di3 (r : dx_row) : Z := astype_int (String.eqb (bpvar r) "BPXDI3").

Section Pipeline.

(** [dx.sort_values(by='SEQN')] uses an unstable sort: the result is some
    rearrangement of the rows in which the subject ids ascend. *)
Variable sort_values_by_SEQN : list long_row -> list long_row.

(** Cells 3 and 4: melt, sort, reset the index, cast the key, drop NaN. *)
Definition dx_filtered (df : list wide_row) : list long_row :=
  dropna (sort_values_by_SEQN (melt df)).

(** Cell 5: derived columns. *)
Definition dx_derived (df : list wide_row) : list dx_row :=
  map add_derived (dx_filtered df).

Definition di_mean_series (df : list wide_row) : gmap Z Q :=
  groupby_SEQN_bp_mean (loc_bpt bpt "DI" (dx_derived df)).

Definition dx_joined (df : list wide_row) : list dxm_row :=
  merge_di_mean (dx_derived df) (di_mean_series df).

(** Cell 6: the table every model is fitted on. *)
Definition dx_final (df : list wide_row) : list dxm_row :=
  iloc_0_5000 (dx_joined df).

Definition model_frame (k : model_id) (df : list wide_row) : list dxm_row :=
  frame_of k (dx_final df).

End Pipeline.

End Nhanes.

(** ** Part III: properties of the mediation notebook *)

Module MediationFacts.

Import Mediation.
Local Open Scope R_scope.

(** Sums and means over the subjects [0 .. k-1]. *)
Fixpoint Rsum_below (k : nat) (f : nat -> R) : R :=
  match k with
  | O => 0
  | S k' => Rsum_below k' f + f k'
  end.

Definition average (k : nat) (f : nat -> R) : R := Rsum_below k f / INR k.

(** The [k]-th block of [n] draws after the generator state [g], per subject. *)
Definition draw (g : RandomState) (n k i : nat) : R :=
  draws g (consumed g + k * n + i).

Section ClosedForm.

Variable n : nat.
Variable solver : formula -> DataFrame -> list R * R.
Variable mode : Z.
Variable g : RandomState.

Definition x_of (i : nat) : R := draw g n 0 i.
Definition m_of (i : nat) : R := (draw g n 0 i + draw g n 1 i) / sqrt 2.
Definition y_of (i : nat) : R :=
  if (mode =? 0)%Z then x_of i + draw g n 2 i
  else if (mode =? 1)%Z then m_of i + draw g n 2 i
  else m_of i + x_of i + draw g n 2 i.

(** The simulated table and the two fitted models. *)
Definition sim_df : DataFrame := fst (gendat n mode g).
Definition m_model : OLSResults := from_formula_fit solver m_on_x sim_df.
Definition o_model : OLSResults := from_formula_fit solver y_on_x_m sim_df.

(** Counterfactual mediator draws of subject [i]: exposure 0 and exposure 1. *)
Definition m_low (i : nat) : R :=
  linear_predictor m_model 0 (m_of i) + sqrt (scale m_model) * draw g n 3 i.
Definition m_high (i : nat) : R :=
  linear_predictor m_model 1 (m_of i) + sqrt (scale m_model) * draw g n 4 i.

(** A counterfactual outcome: the outcome model's prediction at exposure
    [xv] and mediator [mv] plus noise [z] at the model's residual scale. *)
Definition y_cf (xv mv z : R) : R :=
  linear_predictor o_model xv mv + sqrt (scale o_model) * z.

(** The per-subject contrasts behind the two effects. *)
Definition aie_contrast (i : nat) : R :=
  y_cf 0 (m_high i) (draw g n 6 i) - y_cf 0 (m_low i) (draw g n 5 i).
Definition ade_contrast (i : nat) : R :=
  y_cf 1 (m_low i) (draw g n 8 i) - y_cf 0 (m_low i) (draw g n 7 i).

End ClosedForm.

(** The spread of [k] contrasts with denominator [k] and with denominator
    [k - 1]. *)
Definition sd_uncorrected (k : nat) (d : nat -> R) : R :=
  sqrt (average k (fun i => (d i - average k d) * (d i - average k d))).

Definition sd_sample (k : nat) (d : nat -> R) : R :=
  sqrt (Rsum_below k (fun i => (d i - average k d) * (d i - average k d))
        / (INR k - 1)).

(** *** A small run used to evaluate the definitions

    Four subjects, mode 0.  The nine blocks of draws are, in the order in
    which the notebook consumes them: exposure, mediator noise, outcome noise,
    then the noise of the six counterfactual predictions. *)
Definition demo_draws : list R :=
  [ 1; -1; 1; -1;      1; 1; -1; -1;      1; -1; -1; 1;
    0; 0; 0; 0;        0; 0; 0; 0;
    0; 0; 0; 0;        1; 1; -1; -1;
    0; 0; 0; 0;        1; 1; -1; -1 ].

Definition demo_rng : RandomState := mkRandomState (fun i => nth i demo_draws 0) 0.

(** The least-squares answers for the table simulated from [demo_rng]: the
    mediator regression has intercept 0, slope [1 / sqrt 2] and residual
    variance 1; the outcome regression has coefficients 0, 1, 0 and residual
    variance 4 (see [demo_solver_least_squares]). *)
Definition demo_solver (f : formula) (_ : DataFrame) : list R * R :=
  match f with
  | m_on_x => ([0; / sqrt 2], 1)
  | y_on_x_m => ([0; 1; 0], 4)
  end.

(** *** Lists indexed by subject *)

Lemma map_seq_from {A} (f : nat -> A) (a k : nat) :
  map f (seq a k) = map (fun i => f (a + i)%nat) (seq 0 k).
Proof.
  revert f a. induction k as [|k IH]; intros f a; simpl; [reflexivity|].
  rewrite Nat.add_0_r. f_equal.
  rewrite (IH f (S a)), (IH (fun i => f (a + i)%nat) 1%nat).
  apply map_ext. intros i. f_equal. lia.
Qed.

Lemma zip_with_map_same {A B C D} (op : B -> C -> D) (f : A -> B) (h : A -> C) l :
  zip_with op (map f l) (map h l) = map (fun i => op (f i) (h i)) l.
Proof. induction l as [|a l IH]; simpl; [reflexivity | now rewrite IH]. Qed.

Lemma repeat_as_map {A} (c : A) (k : nat) :
  repeat c k = map (fun _ => c) (seq 0 k).
Proof.
  induction k as [|k IH]; simpl; [reflexivity|].
  rewrite IH, <- seq_shift, map_map. reflexivity.
Qed.

Lemma length_map_seq {A} (f : nat -> A) (k : nat) : length (map f (seq 0 k)) = k.
Proof. now rewrite length_map, length_seq. Qed.

Lemma nth_map_seq (f : nat -> R) (k i : nat) (d : R) :
  (i < k)%nat -> nth i (map f (seq 0 k)) d = f i.
Proof.
  intros Hi. rewrite (nth_indep _ d (f 0%nat)) by now rewrite length_map_seq.
  rewrite (map_nth f (seq 0 k) 0%nat i), seq_nth by assumption. reflexivity.
Qed.

Lemma np_sum_app (u v : list R) : np_sum (u ++ v) = np_sum u + np_sum v.
Proof. induction u as [|a u IH]; simpl; [lra | rewrite IH; lra]. Qed.

Lemma np_sum_map_seq (f : nat -> R) (k : nat) :
  np_sum (map f (seq 0 k)) = Rsum_below k f.
Proof.
  induction k as [|k IH]; [reflexivity|].
  rewrite seq_S, map_app, np_sum_app, IH. simpl. lra.
Qed.

Lemma np_mean_map_seq (f : nat -> R) (k : nat) :
  np_mean (map f (seq 0 k)) = average k f.
Proof. unfold np_mean, average. now rewrite np_sum_map_seq, length_map_seq. Qed.

Lemma Rsum_below_ext (f h : nat -> R) (k : nat) :
  (forall i, (i < k)%nat -> f i = h i) -> Rsum_below k f = Rsum_below k h.
Proof.
  induction k as [|k IH]; intros E; [reflexivity|].
  simpl. rewrite IH, (E k) by (intros; auto with arith). reflexivity.
Qed.

Lemma average_ext (f h : nat -> R) (k : nat) :
  (forall i, (i < k)%nat -> f i = h i) -> average k f = average k h.
Proof. intros E. unfold average. now rewrite (Rsum_below_ext f h k E). Qed.

Lemma np_std_map_seq (f : nat -> R) (k : nat) :
  np_std (map f (seq 0 k)) = sd_uncorrected k f.
Proof.
  unfold np_std, sd_uncorrected.
  rewrite map_map, !np_mean_map_seq. reflexivity.
Qed.

Lemma sd_uncorrected_ext (f h : nat -> R) (k : nat) :
  (forall i, (i < k)%nat -> f i = h i) -> sd_uncorrected k f = sd_uncorrected k h.
Proof.
  intros E. unfold sd_uncorrected. rewrite (average_ext f h k E).
  f_equal. apply average_ext. intros i Hi. now rewrite (E i Hi).
Qed.

(** *** The simulation in closed form, subject by subject *)

Ltac to_subjects :=
  cbn [fst snd col_x col_m col_y consumed draws];
  unfold vadd, vsub, vscale, vdiv, predict, set_x_scalar, set_m;
  cbn [fst snd col_x col_m col_y consumed draws];
  repeat first
    [ rewrite length_map_seq
    | rewrite repeat_as_map
    | rewrite map_map
    | rewrite zip_with_map_same
    | rewrite (map_seq_from (draws _) (_ + _)) ].

Lemma normal_closed k g :
  normal k g = (map (fun i => draws g (consumed g + i)) (seq 0 k),
                mkRandomState (draws g) (consumed g + k)).
Proof. unfold normal. now rewrite map_seq_from. Qed.

Lemma gendat_closed n mode g :
  gendat n mode g =
  (mkDataFrame (map (x_of n g) (seq 0 n)) (map (m_of n g) (seq 0 n))
               (map (y_of n mode g) (seq 0 n)),
   mkRandomState (draws g) (consumed g + 3 * n)).
Proof.
  unfold gendat, bind, ret. rewrite !normal_closed. cbn [consumed draws].
  assert (Hx : forall i, draws g (consumed g + i) = x_of n g i).
  { intros i. unfold x_of, draw. f_equal. lia. }
  assert (He : forall i, draws g (consumed g + n + i) = draw g n 1 i).
  { intros i. unfold draw. f_equal. lia. }
  assert (Hz : forall i, draws g (consumed g + n + n + i) = draw g n 2 i).
  { intros i. unfold draw. f_equal. lia. }
  assert (Hg : (consumed g + n + n + n = consumed g + 3 * n)%nat) by lia.
  unfold y_of, m_of.
  destruct (mode =? 0)%Z; [|destruct (mode =? 1)%Z];
    rewrite !normal_closed; cbn [consumed draws]; rewrite Hg;
    unfold vadd, vdiv; rewrite ?zip_with_map_same, ?map_map, ?zip_with_map_same;
    f_equal; f_equal; apply map_ext; intros i; rewrite ?Hx, ?He, ?Hz; reflexivity.
Qed.

Lemma fake_mediation_closed n solver mode g :
  fst (fake_mediation n solver mode g) =
  (average n (aie_contrast n solver mode g),
   sd_uncorrected n (aie_contrast n solver mode g) / sqrt (INR n),
   average n (ade_contrast n solver mode g),
   sd_uncorrected n (ade_contrast n solver mode g) / sqrt (INR n)).
Proof.
  unfold fake_mediation, bind, ret.
  assert (Edf : sim_df n mode g = fst (gendat n mode g)) by reflexivity.
  rewrite gendat_closed in *. cbn [fst] in Edf.
  cbv beta iota zeta.
  rewrite <- !Edf. fold (m_model n solver mode g). fold (o_model n solver mode g).
  repeat (rewrite normal_closed; cbv beta iota zeta; cbn [consumed draws]).
  rewrite Edf. cbn [fst].
  to_subjects.
  rewrite !np_mean_map_seq, !np_std_map_seq.
  repeat match goal with |- (_, _) = (_, _) => f_equal end;
    [ apply average_ext | f_equal; apply sd_uncorrected_ext
    | apply average_ext | f_equal; apply sd_uncorrected_ext ];
    intros i _; unfold aie_contrast, ade_contrast, y_cf, m_high, m_low, draw;
    repeat (f_equal; try lia).
Qed.

(** The rows of the simulated table, for any mode. *)
Lemma gendat_rows n mode g :
  let df := fst (gendat n mode g) in
  length (col_x df) = n /\ length (col_m df) = n /\ length (col_y df) = n /\
  consumed (snd (gendat n mode g)) = (consumed g + 3 * n)%nat /\
  forall i, (i < n)%nat ->
    nth i (col_x df) 0 = x_of n g i /\
    nth i (col_m df) 0 = m_of n g i /\
    nth i (col_y df) 0 = y_of n mode g i.
Proof.
  rewrite gendat_closed. cbn [fst snd col_x col_m col_y consumed].
  rewrite !length_map_seq.
  split; [reflexivity|]. split; [reflexivity|]. split; [reflexivity|].
  split; [reflexivity|].
  intros i Hi. repeat split; now apply nth_map_seq.
Qed.

(** C2. For mode 0, 1 or 2 and any stream of draws, [gendat] returns a table
    of [n] rows; in row [i] the exposure is the [i]-th draw of the first
    block, the mediator is that draw plus the [i]-th draw of the second block,
    over [sqrt 2], and the outcome adds the [i]-th draw of the third block to
    [x] (mode 0), to [m] (mode 1) or to [m + x] (mode 2).  The three blocks
    are disjoint, start at the generator's current position, and the
    generator is left after the third block. *)
Theorem gendat_table (n : nat) (mode : Z) (g : RandomState) :
  (mode = 0 \/ mode = 1 \/ mode = 2)%Z ->
  let df := fst (gendat n mode g) in
  length (col_x df) = n /\ length (col_m df) = n /\ length (col_y df) = n /\
  consumed (snd (gendat n mode g)) = (consumed g + 3 * n)%nat /\
  forall i, (i < n)%nat ->
    let x := draws g (consumed g + i) in
    let e := draws g (consumed g + n + i) in
    let z := draws g (consumed g + 2 * n + i) in
    let m := (x + e) / sqrt 2 in
    nth i (col_x df) 0 = x /\
    nth i (col_m df) 0 = m /\
    (mode = 0%Z -> nth i (col_y df) 0 = x + z) /\
    (mode = 1%Z -> nth i (col_y df) 0 = m + z) /\
    (mode = 2%Z -> nth i (col_y df) 0 = m + x + z).
Proof.
  intros Hmode df.
  destruct (gendat_rows n mode g) as (Lx & Lm & Ly & Hc & Hrow).
  fold df in Lx, Lm, Ly, Hrow.
  split; [assumption|]. split; [assumption|]. split; [assumption|].
  split; [assumption|].
  intros i Hi x e z m.
  destruct (Hrow i Hi) as (Hx & Hm & Hy).
  assert (Ex : x_of n g i = x).
  { unfold x_of, draw, x. f_equal. lia. }
  assert (Em : m_of n g i = m).
  { unfold m_of, draw, m, x, e. repeat (f_equal; try lia). }
  assert (Ez : draw g n 2 i = z) by reflexivity.
  rewrite Hx, Hm, Hy, Ex, Em. unfold y_of. rewrite Ex, Em, Ez.
  repeat split; try reflexivity; intros ->; reflexivity.
Qed.

Lemma gendat_table_witness :
  (2 = 0 \/ 2 = 1 \/ 2 = 2)%Z /\
  length (col_y (fst (gendat 4 2 demo_rng))) = 4%nat.
Proof.
  split; [right; right; reflexivity|].
  exact (proj1 (proj2 (proj2
    (gendat_table 4 2 demo_rng (or_intror (or_intror eq_refl)))))).
Defined.

(** C9. Any mode other than 0 and 1, inside the documented set or not, is
    accepted and yields the partial-mediation table: [y = m + x + noise] in
    every row. *)
Theorem gendat_other_modes (n : nat) (mode : Z) (g : RandomState) :
  mode <> 0%Z -> mode <> 1%Z ->
  let df := fst (gendat n mode g) in
  length (col_x df) = n /\ length (col_m df) = n /\ length (col_y df) = n /\
  forall i, (i < n)%nat ->
    nth i (col_y df) 0 =
    nth i (col_m df) 0 + nth i (col_x df) 0 + draws g (consumed g + 2 * n + i).
Proof.
  intros H0 H1 df.
  destruct (gendat_rows n mode g) as (Lx & Lm & Ly & _ & Hrow).
  fold df in Lx, Lm, Ly, Hrow.
  split; [assumption|]. split; [assumption|]. split; [assumption|].
  intros i Hi. destruct (Hrow i Hi) as (Hx & Hm & Hy).
  rewrite Hx, Hm, Hy. unfold y_of.
  apply Z.eqb_neq in H0, H1. rewrite H0, H1. reflexivity.
Qed.

Lemma gendat_other_modes_witness :
  (3 <> 0 /\ 3 <> 1 /\ -1 <> 0 /\ -1 <> 1)%Z /\
  length (col_y (fst (gendat 4 3 demo_rng))) = 4%nat /\
  length (col_y (fst (gendat 4 (-1) demo_rng))) = 4%nat.
Proof.
  assert (A : (3 <> 0)%Z) by discriminate.
  assert (B : (3 <> 1)%Z) by discriminate.
  assert (C : (-1 <> 0)%Z) by discriminate.
  assert (D : (-1 <> 1)%Z) by discriminate.
  split; [tauto|]. split.
  - exact (proj1 (proj2 (proj2 (gendat_other_modes 4 3 demo_rng A B)))).
  - exact (proj1 (proj2 (proj2 (gendat_other_modes 4 (-1) demo_rng C D)))).
Defined.

(** C1. For every mode, the average indirect effect returned by
    [fake_mediation] is the mean over the [n] subjects of the outcome
    predicted at exposure 0 with the mediator at its exposure-1 draw minus the
    outcome predicted at exposure 0 with the mediator at its exposure-0 draw;
    the average direct effect is the mean of the outcome predicted at
    exposure 1 minus the outcome predicted at exposure 0, the mediator at its
    exposure-0 draw in both.  Every prediction, of the mediator and of the
    outcome, carries its own block of noise times the square root of the
    fitted model's residual variance. *)
Theorem fake_mediation_effects
    (n : nat) (solver : formula -> DataFrame -> list R * R)
    (mode : Z) (g : RandomState) :
  let mm := from_formula_fit solver m_on_x (fst (gendat n mode g)) in
  let om := from_formula_fit solver y_on_x_m (fst (gendat n mode g)) in
  let z k i := draws g (consumed g + k * n + i) in
  let m_obs i := nth i (col_m (fst (gendat n mode g))) 0 in
  let mlow i := linear_predictor mm 0 (m_obs i) + sqrt (scale mm) * z 3%nat i in
  let mhigh i := linear_predictor mm 1 (m_obs i) + sqrt (scale mm) * z 4%nat i in
  let outcome xv mv noise := linear_predictor om xv mv + sqrt (scale om) * noise in
  let '(aie, _, ade, _) := fst (fake_mediation n solver mode g) in
  aie = average n (fun i => outcome 0 (mhigh i) (z 6%nat i)
                            - outcome 0 (mlow i) (z 5%nat i)) /\
  ade = average n (fun i => outcome 1 (mlow i) (z 8%nat i)
                            - outcome 0 (mlow i) (z 7%nat i)).
Proof.
  intros mm om z m_obs mlow mhigh outcome.
  rewrite fake_mediation_closed.
  destruct (gendat_rows n mode g) as (_ & _ & _ & _ & Hrow).
  split; apply average_ext; intros i Hi;
    destruct (Hrow i Hi) as (_ & Hm & _);
    unfold aie_contrast, ade_contrast, y_cf, m_high, m_low, outcome, mhigh, mlow,
      m_obs; rewrite Hm; reflexivity.
Qed.

(** C5 (amended). For both effects, the standard error returned by
    [fake_mediation] is the standard deviation of the [n] per-subject
    contrasts computed with denominator [n] (numpy's default, not the
    sample standard deviation with denominator [n - 1]), divided by the square
    root of [n]. *)
Theorem fake_mediation_standard_errors
    (n : nat) (solver : formula -> DataFrame -> list R * R)
    (mode : Z) (g : RandomState) :
  let da := aie_contrast n solver mode g in
  let dd := ade_contrast n solver mode g in
  let '(_, aie_se, _, ade_se) := fst (fake_mediation n solver mode g) in
  aie_se = sqrt (Rsum_below n (fun i => (da i - average n da) * (da i - average n da))
                 / INR n) / sqrt (INR n) /\
  ade_se = sqrt (Rsum_below n (fun i => (dd i - average n dd) * (dd i - average n dd))
                 / INR n) / sqrt (INR n).
Proof.
  intros da dd. rewrite fake_mediation_closed. split; reflexivity.
Qed.

(** *** The small run, evaluated *)

Lemma sqrt_4 : sqrt 4 = 2.
Proof. replace 4 with (2 * 2) by lra. apply sqrt_square. lra. Qed.

Lemma demo_aie_contrast i :
  (i < 4)%nat ->
  aie_contrast 4 demo_solver 0 demo_rng i = nth i [2; 2; -2; -2] 0.
Proof.
  intros Hi.
  unfold aie_contrast, y_cf, m_high, m_low, linear_predictor, o_model, m_model,
    from_formula_fit, demo_solver, dot, design, draw, demo_rng.
  cbn [fst snd params scale model_formula zip_with np_sum fold_right draws consumed].
  rewrite sqrt_4.
  do 4 (destruct i as [|i]; [cbn [Nat.add Nat.mul nth demo_draws]; lra|]). lia.
Qed.

Lemma demo_ade_contrast i :
  (i < 4)%nat ->
  ade_contrast 4 demo_solver 0 demo_rng i = nth i [3; 3; -1; -1] 0.
Proof.
  intros Hi.
  unfold ade_contrast, y_cf, m_high, m_low, linear_predictor, o_model, m_model,
    from_formula_fit, demo_solver, dot, design, draw, demo_rng.
  cbn [fst snd params scale model_formula zip_with np_sum fold_right draws consumed].
  rewrite sqrt_4.
  do 4 (destruct i as [|i]; [cbn [Nat.add Nat.mul nth demo_draws]; lra|]). lia.
Qed.

Lemma spread_of_four (d : nat -> R) (c : R) :
  d 0%nat = c + 2 -> d 1%nat = c + 2 -> d 2%nat = c - 2 -> d 3%nat = c - 2 ->
  average 4 d = c /\ sd_uncorrected 4 d = 2 /\ sd_sample 4 d = sqrt (16 / 3).
Proof.
  intros E0 E1 E2 E3.
  assert (Ea : average 4 d = c).
  { unfold average. cbn [Rsum_below INR]. rewrite E0, E1, E2, E3. lra. }
  split; [exact Ea|]. unfold sd_uncorrected, sd_sample. rewrite Ea.
  unfold average. cbn [Rsum_below INR]. rewrite E0, E1, E2, E3. split.
  - transitivity (sqrt 4); [f_equal; field | apply sqrt_4].
  - f_equal. field.
Qed.

Lemma sqrt_INR_4 : sqrt (INR 4) = 2.
Proof. rewrite <- sqrt_4. f_equal. cbn [INR]. lra. Qed.

Lemma sample_sd_differs : sqrt (16 / 3) / 2 <> 1.
Proof.
  intros E. assert (E2 : sqrt (16 / 3) = 2) by lra.
  assert (H := sqrt_sqrt (16 / 3)). rewrite E2 in H. lra.
Qed.

(** On the small run both standard errors are 1, the spread with denominator
    [n] over [sqrt n]; the sample standard deviation (denominator [n - 1]) of
    the same contrasts over [sqrt n] is [sqrt (16 / 3) / 2]. *)
Lemma fake_mediation_se_not_sample_sd :
  let '(_, aie_se, _, ade_se) := fst (fake_mediation 4 demo_solver 0 demo_rng) in
  aie_se = 1 /\ ade_se = 1 /\
  aie_se <> sd_sample 4 (aie_contrast 4 demo_solver 0 demo_rng) / sqrt (INR 4) /\
  ade_se <> sd_sample 4 (ade_contrast 4 demo_solver 0 demo_rng) / sqrt (INR 4).
Proof.
  rewrite fake_mediation_closed.
  destruct (spread_of_four (aie_contrast 4 demo_solver 0 demo_rng) 0)
    as (_ & Ha & Hsa); try (rewrite demo_aie_contrast by lia; cbn [nth]; lra).
  destruct (spread_of_four (ade_contrast 4 demo_solver 0 demo_rng) 1)
    as (_ & Hd & Hsd); try (rewrite demo_ade_contrast by lia; cbn [nth]; lra).
  rewrite Ha, Hd, Hsa, Hsd, sqrt_INR_4.
  assert (N := sample_sd_differs).
  repeat split; try lra; intros E; apply N; lra.
Qed.

(** The answers of [demo_solver] solve the normal equations on the table
    simulated from [demo_rng]: the residuals of each regression are orthogonal
    to its regressors, and [scale] is the residual sum of squares over the
    residual degrees of freedom. *)
Lemma demo_solver_least_squares :
  let df := fst (gendat 4 0 demo_rng) in
  let mm := from_formula_fit demo_solver m_on_x df in
  let om := from_formula_fit demo_solver y_on_x_m df in
  let x i := nth i (col_x df) 0 in
  let m i := nth i (col_m df) 0 in
  let y i := nth i (col_y df) 0 in
  let rm i := m i - linear_predictor mm (x i) (m i) in
  let ro i := y i - linear_predictor om (x i) (m i) in
  Rsum_below 4 rm = 0 /\
  Rsum_below 4 (fun i => rm i * x i) = 0 /\
  scale mm = Rsum_below 4 (fun i => rm i * rm i) / (4 - 2) /\
  Rsum_below 4 ro = 0 /\
  Rsum_below 4 (fun i => ro i * x i) = 0 /\
  Rsum_below 4 (fun i => ro i * m i) = 0 /\
  scale om = Rsum_below 4 (fun i => ro i * ro i) / (4 - 3).
Proof.
  intros df mm om x m y rm ro.
  assert (Hs : sqrt 2 * sqrt 2 = 2) by (apply sqrt_sqrt; lra).
  assert (Hp : 0 < sqrt 2) by (apply sqrt_lt_R0; lra).
  unfold rm, ro, x, m, y, df, mm, om. rewrite gendat_closed.
  cbn [fst col_x col_m col_y seq map nth Rsum_below].
  unfold linear_predictor, from_formula_fit, demo_solver, dot, design,
    y_of, m_of, x_of, draw, demo_rng.
  cbn [fst snd params scale model_formula zip_with np_sum fold_right draws
       consumed Nat.add Nat.mul nth demo_draws Z.eqb].
  set (s := sqrt 2) in *.
  assert (Hs2 : s ^ 2 = 2) by (rewrite <- Hs; ring).
  repeat split; field_simplify; rewrite ?Hs2; lra.
Qed.

(** *** How the runs use the generator *)

Lemma fake_mediation_state n solver mode g :
  snd (fake_mediation n solver mode g) =
  mkRandomState (draws g) (consumed g + 9 * n).
Proof.
  unfold fake_mediation, bind, ret. rewrite gendat_closed.
  cbv beta iota zeta.
  repeat (rewrite normal_closed; cbv beta iota zeta; cbn [consumed draws]).
  cbn [snd]. f_equal. lia.
Qed.

Lemma draw_window (g g' : RandomState) (n k i : nat) :
  consumed g = consumed g' ->
  (forall j, (consumed g <= j < consumed g + 9 * n)%nat -> draws g j = draws g' j) ->
  (k < 9)%nat -> (i < n)%nat ->
  draw g n k i = draw g' n k i.
Proof.
  intros Hc Hw Hk Hi. unfold draw. rewrite <- Hc. apply Hw. nia.
Qed.

Lemma sim_df_window (g g' : RandomState) (n : nat) (mode : Z) :
  consumed g = consumed g' ->
  (forall j, (consumed g <= j < consumed g + 9 * n)%nat -> draws g j = draws g' j) ->
  sim_df n mode g = sim_df n mode g'.
Proof.
  intros Hc Hw. unfold sim_df. rewrite !gendat_closed. cbn [fst].
  assert (D : forall k i, (k < 9)%nat -> (i < n)%nat -> draw g n k i = draw g' n k i).
  { intros k i Hk Hi. now apply draw_window. }
  f_equal; apply map_ext_in; intros i Hi; apply in_seq in Hi;
    unfold y_of, m_of, x_of; rewrite !(D 0%nat), ?(D 1%nat), ?(D 2%nat) by lia;
    reflexivity.
Qed.

(** X1. One run of [fake_mediation] reads exactly the next [9 n] draws: two
    generators at the same position whose streams agree on that window give
    the same four numbers, whatever the streams hold elsewhere; afterwards the
    generator stands [9 n] draws further and its stream is unchanged. *)
Theorem fake_mediation_reads_its_window
    (n : nat) (solver : formula -> DataFrame -> list R * R)
    (mode : Z) (g g' : RandomState) :
  consumed g = consumed g' ->
  (forall j, (consumed g <= j < consumed g + 9 * n)%nat -> draws g j = draws g' j) ->
  fst (fake_mediation n solver mode g) = fst (fake_mediation n solver mode g') /\
  consumed (snd (fake_mediation n solver mode g)) = (consumed g + 9 * n)%nat /\
  draws (snd (fake_mediation n solver mode g)) = draws g.
Proof.
  intros Hc Hw. rewrite fake_mediation_state. cbn [consumed draws].
  split; [|split; reflexivity].
  rewrite !fake_mediation_closed.
  assert (D : forall k i, (k < 9)%nat -> (i < n)%nat -> draw g n k i = draw g' n k i).
  { intros k i Hk Hi. now apply draw_window. }
  assert (Edf := sim_df_window g g' n mode Hc Hw).
  assert (Ea : forall i, (i < n)%nat ->
            aie_contrast n solver mode g i = aie_contrast n solver mode g' i).
  { intros i Hi. unfold aie_contrast, y_cf, m_high, m_low, o_model, m_model, m_of.
    rewrite Edf, !(D 0%nat), !(D 1%nat), !(D 3%nat), !(D 4%nat), !(D 5%nat), !(D 6%nat)
      by lia. reflexivity. }
  assert (Ed : forall i, (i < n)%nat ->
            ade_contrast n solver mode g i = ade_contrast n solver mode g' i).
  { intros i Hi. unfold ade_contrast, y_cf, m_high, m_low, o_model, m_model, m_of.
    rewrite Edf, !(D 0%nat), !(D 1%nat), !(D 3%nat), !(D 7%nat), !(D 8%nat)
      by lia. reflexivity. }
  rewrite (average_ext _ _ n Ea), (sd_uncorrected_ext _ _ n Ea).
  rewrite (average_ext _ _ n Ed), (sd_uncorrected_ext _ _ n Ed).
  reflexivity.
Qed.

Lemma fake_mediation_pair n solver mode g :
  fake_mediation n solver mode g =
  (fst (fake_mediation n solver mode g), mkRandomState (draws g) (consumed g + 9 * n)).
Proof. rewrite <- (fake_mediation_state n solver mode g). apply surjective_pairing. Qed.

(** X2. The loop over the modes 0, 1, 2 gives each run its own block of
    [9 n] draws, one after the other: the printed tuples are those of the
    three runs started at offsets 0, [9 n] and [18 n] from the generator's
    position, and the generator ends [27 n] draws further. *)
Theorem run_fake_mediation_blocks
    (n : nat) (solver : formula -> DataFrame -> list R * R) (g : RandomState) :
  let start k := mkRandomState (draws g) (consumed g + k * (9 * n)) in
  run_fake_mediation n solver g =
  ([ fst (fake_mediation n solver 0 (start 0%nat));
     fst (fake_mediation n solver 1 (start 1%nat));
     fst (fake_mediation n solver 2 (start 2%nat)) ],
   start 3%nat).
Proof.
  intros start. unfold run_fake_mediation, for_each, bind, ret.
  assert (E0 : g = start 0%nat).
  { unfold start. destruct g as [d c]. cbn. f_equal. lia. }
  rewrite (fake_mediation_pair n solver 0 g).
  rewrite (fake_mediation_pair n solver 1). cbn [draws consumed].
  rewrite (fake_mediation_pair n solver 2). cbn [draws consumed].
  assert (E1 : mkRandomState (draws g) (consumed g + 9 * n) = start 1%nat).
  { unfold start. f_equal. lia. }
  assert (E2 : mkRandomState (draws g) (consumed g + 9 * n + 9 * n) = start 2%nat).
  { unfold start. f_equal. lia. }
  assert (E3 : mkRandomState (draws g) (consumed g + 9 * n + 9 * n + 9 * n) = start 3%nat).
  { unfold start. f_equal. lia. }
  rewrite E1, E2, E3, <- E0. reflexivity.
Qed.

(** *** The estimates in terms of the fitted coefficients *)

Lemma Rsum_below_affine (k : nat) (c a b : R) (f h : nat -> R) :
  Rsum_below k (fun i => c + a * f i + b * h i) =
  INR k * c + a * Rsum_below k f + b * Rsum_below k h.
Proof.
  induction k as [|k IH]; [simpl; ring|].
  cbn [Rsum_below]. rewrite IH, S_INR. ring.
Qed.

Lemma average_affine (k : nat) (c a b : R) (f h : nat -> R) :
  (0 < k)%nat ->
  average k (fun i => c + a * f i + b * h i) = c + a * average k f + b * average k h.
Proof.
  intros Hk. unfold average. rewrite Rsum_below_affine.
  assert (INR k <> 0) by (apply not_0_INR; lia). field. assumption.
Qed.

(** X3. When the solver returns two coefficients [a0, a1] for the mediator
    model and three coefficients [b0, bx, bm] for the outcome model, the
    average indirect effect is the product [bm * a1] of the two path
    coefficients plus averaged noise, and the average direct effect is the
    exposure coefficient [bx] plus averaged noise; the simulated exposures,
    mediators and outcomes enter only through the fitted models. *)
Theorem fake_mediation_product_of_coefficients
    (n : nat) (solver : formula -> DataFrame -> list R * R)
    (mode : Z) (g : RandomState) (a0 a1 b0 bx bm : R) :
  (0 < n)%nat ->
  fst (solver m_on_x (fst (gendat n mode g))) = [a0; a1] ->
  fst (solver y_on_x_m (fst (gendat n mode g))) = [b0; bx; bm] ->
  let sm := sqrt (snd (solver m_on_x (fst (gendat n mode g)))) in
  let so := sqrt (snd (solver y_on_x_m (fst (gendat n mode g)))) in
  let z k i := draws g (consumed g + k * n + i) in
  let '(aie, _, ade, _) := fst (fake_mediation n solver mode g) in
  aie = bm * a1
        + bm * sm * average n (fun i => z 4%nat i - z 3%nat i)
        + so * average n (fun i => z 6%nat i - z 5%nat i) /\
  ade = bx + so * average n (fun i => z 8%nat i - z 7%nat i).
Proof.
  intros Hn Hm Ho sm so z. rewrite fake_mediation_closed. split.
  - rewrite <- (average_affine n (bm * a1) (bm * sm) so) by assumption.
    apply average_ext. intros i _.
    unfold aie_contrast, y_cf, m_high, m_low, linear_predictor, o_model, m_model,
      from_formula_fit, sim_df, dot, design, draw.
    cbn [params scale model_formula]. rewrite Hm, Ho.
    cbn [zip_with np_sum fold_right]. fold sm so. unfold z. ring.
  - replace (bx + so * average n (fun i => z 8%nat i - z 7%nat i))
      with (bx + so * average n (fun i => z 8%nat i - z 7%nat i)
               + 0 * average n (fun _ => 0)) by ring.
    rewrite <- (average_affine n bx so 0) by assumption.
    apply average_ext. intros i _.
    unfold ade_contrast, y_cf, m_high, m_low, linear_predictor, o_model, m_model,
      from_formula_fit, sim_df, dot, design, draw.
    cbn [params scale model_formula]. rewrite Hm, Ho.
    cbn [zip_with np_sum fold_right]. fold sm so. unfold z. ring.
Qed.

(** The small run with every draw after the first 36 replaced. *)
Definition demo_rng_tail : RandomState :=
  mkRandomState (fun i => if (i <? 36)%nat then nth i demo_draws 0 else 7) 0.

Lemma fake_mediation_reads_its_window_witness :
  consumed demo_rng = consumed demo_rng_tail /\
  fst (fake_mediation 4 demo_solver 0 demo_rng) =
  fst (fake_mediation 4 demo_solver 0 demo_rng_tail).
Proof.
  assert (Hc : consumed demo_rng = consumed demo_rng_tail) by reflexivity.
  assert (Hw : forall j, (consumed demo_rng <= j < consumed demo_rng + 9 * 4)%nat ->
                         draws demo_rng j = draws demo_rng_tail j).
  { intros j Hj. cbn [draws demo_rng demo_rng_tail consumed] in *.
    destruct (Nat.ltb_spec j 36); [reflexivity | lia]. }
  split; [exact Hc|].
  exact (proj1 (fake_mediation_reads_its_window 4 demo_solver 0 demo_rng demo_rng_tail
                  Hc Hw)).
Defined.

Lemma fake_mediation_product_of_coefficients_witness :
  (0 < 4)%nat /\
  let '(aie, _, ade, _) := fst (fake_mediation 4 demo_solver 0 demo_rng) in
  aie = 0 * / sqrt 2
        + 0 * sqrt 1 * average 4 (fun i => draws demo_rng (0 + 4 * 4 + i)
                                         - draws demo_rng (0 + 3 * 4 + i))
        + sqrt 4 * average 4 (fun i => draws demo_rng (0 + 6 * 4 + i)
                                       - draws demo_rng (0 + 5 * 4 + i)) /\
  ade = 1 + sqrt 4 * average 4 (fun i => draws demo_rng (0 + 8 * 4 + i)
                                         - draws demo_rng (0 + 7 * 4 + i)).
Proof.
  assert (Hn : (0 < 4)%nat) by lia.
  split; [exact Hn|].
  exact (fake_mediation_product_of_coefficients 4 demo_solver 0 demo_rng
           0 (/ sqrt 2) 0 1 0 Hn eq_refl eq_refl).
Defined.

End MediationFacts.

(** ** Part IV: properties of the NHANES notebook *)

Module NhanesFacts.

Import Nhanes.

(** The long row that the melt derives from wide row [w] and column [c]. *)
Definition long_of (w : wide_row) (c : string) : long_row :=
  mkLong (df_SEQN w) (df_RIDAGEYR w) (df_RIAGENDR w) (df_BMXBMI w) c (column c w).

(** The non-missing readings of type [t] ("SY" or "DI") of subject [s], in
    table order. *)
Definition subject_readings (t : string) (s : Z) (rows : list dx_row) : list Q :=
  omap (fun r : dx_row => bp r)
       (List.filter (fun r : dx_row => (SEQN r =? s)%Z) (loc_bpt bpt t rows)).

(** The non-missing readings of subject [s] whose measurement name is one of
    the diastolic columns [divars], in table order.  The long table is read
    as it is, without the derived columns. *)
Definition diastolic_readings (s : Z) (rows : list long_row) : list Q :=
  omap (fun r : long_row => bp r)
       (List.filter (fun r : long_row =>
                       (SEQN r =? s)%Z && existsb (String.eqb (bpvar r)) divars)
                    rows).

Definition Qsum (vs : list Q) : Q := fold_right Qplus 0%Q vs.

Definition Qmean (vs : list Q) : Q := (Qsum vs / inject_Z (Z.of_nat (length vs)))%Q.

(** One step of the running sum and count kept for a key. *)
Definition acc_step (o : option (Q * nat)) (v : Q) : option (Q * nat) :=
  match o with
  | Some (s, k) => Some (Qplus s v, S k)
  | None => Some (v, 1%nat)
  end.

(** The frame of a model, computed on rows without the [di_mean] column. *)
Definition frame_of_obs (k : model_id) (dx : list dx_row) : list dx_row :=
  match k with
  | model2 | model3 => loc_bpt bpt "SY" dx
  | model4 | model5 | model6 => loc_bpt bpt "DI" dx
  | _ => dx
  end.

(** *** An admissible sort

    Merge sort on the subject id.  Like the sort pandas uses by default it
    does not keep rows with equal ids in their original order; the order it
    gives such rows need not be the order pandas gives them.  It serves to
    evaluate the pipeline on small tables: what is proved for every admissible
    sort holds for pandas' order too, what is computed with merge sort shows
    one admissible order. *)

Module SEQNOrder <: TotalLeBool.
Definition t := long_row.
Definition leb (a b : t) : bool := (SEQN a <=? SEQN b)%Z.
Theorem leb_total : forall a b, leb a b = true \/ leb b a = true.
Proof.
  intros a b. unfold leb.
  destruct (Z.leb_spec (SEQN a) (SEQN b)); [left | right]; [reflexivity|].
  apply Z.leb_le. lia.
Qed.
End SEQNOrder.

Module SEQNSort := Sort SEQNOrder.

(** *** Tables used to evaluate the pipeline *)

Definition person (s : Z) (sy1 sy2 sy3 sy4 di1 di2 di3 di4 : option Q) : wide_row :=
  mkWide s (Some 30%Q) (Some 1%Q) (Some 25%Q) sy1 sy2 sy3 sy4 di1 di2 di3 di4.

(** Two subjects; the second has systolic readings only. *)
Definition two_subjects : list wide_row :=
  [ person 1 (Some 110%Q) (Some 112%Q) None None (Some 70%Q) (Some 74%Q) None None;
    person 2 (Some 120%Q) (Some 118%Q) None None None None None None ].

(** A cohort of 626 subjects.  Subject 1 has five readings, the others all
    eight; [di2_last] is the second diastolic reading of subject 626. *)
Definition cohort (di2_last : Q) : list wide_row :=
  person 1 (Some 110%Q) (Some 112%Q) (Some 114%Q) (Some 116%Q) (Some 70%Q) None None None
  :: map (fun i => person (Z.of_nat i) (Some 110%Q) (Some 112%Q) (Some 114%Q) (Some 116%Q)
                     (Some 70%Q) (Some (if Nat.eqb i 626 then di2_last else 72%Q))
                     (Some 74%Q) (Some 76%Q))
         (seq 2 625).

Definition show (r : dxm_row) : Z * string * Q := (SEQN r, bpvar r, di_mean r).

(** *** The melt, row by row *)

Lemma vvars_names :
  vvars = ["BPXSY1"; "BPXSY2"; "BPXSY3"; "BPXSY4";
           "BPXDI1"; "BPXDI2"; "BPXDI3"; "BPXDI4"]%string.
Proof. reflexivity. Qed.

Lemma melt_one_column (df : list wide_row) (c : string) :
  zip_with (fun w cv => mkLong (df_SEQN w) (df_RIDAGEYR w) (df_RIAGENDR w)
                               (df_BMXBMI w) (fst cv) (snd cv))
           df (zip (repeat c (length df)) (map (column c) df))
  = map (fun w => long_of w c) df.
Proof. induction df as [|w df IH]; simpl; [reflexivity | now rewrite IH]. Qed.

Lemma melt_columns (df : list wide_row) (cs : list string) :
  zip_with (fun w cv => mkLong (df_SEQN w) (df_RIDAGEYR w) (df_RIAGENDR w)
                               (df_BMXBMI w) (fst cv) (snd cv))
           (concat (repeat df (length cs)))
           (zip (flat_map (fun c => repeat c (length df)) cs)
                (flat_map (fun c => map (column c) df) cs))
  = flat_map (fun c => map (fun w => long_of w c) df) cs.
Proof.
  induction cs as [|c cs IH]; [reflexivity|].
  cbn [length repeat concat flat_map].
  rewrite (zip_with_app pair) by now rewrite repeat_length, length_map.
  rewrite zip_with_app.
  - now rewrite melt_one_column, IH.
  - rewrite length_zip_with, repeat_length, length_map. lia.
Qed.

Lemma melt_by_rows (df : list wide_row) :
  melt df = flat_map (fun c => map (fun w => long_of w c) df) vvars.
Proof. unfold melt. apply melt_columns. Qed.

Lemma lookup_blocks {A B C} (f : C -> A -> B) (l : list A) (cs : list C) (j : nat) :
  (j < length cs * length l)%nat ->
  exists c a,
    cs !! (j / length l)%nat = Some c /\ l !! (j mod length l)%nat = Some a /\
    flat_map (fun c => map (f c) l) cs !! j = Some (f c a).
Proof.
  revert j. induction cs as [|c cs IH]; intros j Hj; [simpl in Hj; lia|].
  assert (HN : length l <> 0%nat) by (intros E; rewrite E in Hj; lia).
  cbn [flat_map length] in *.
  destruct (Nat.lt_ge_cases j (length l)) as [Hlt|Hge].
  - rewrite Nat.div_small, Nat.mod_small by assumption.
    destruct (lookup_lt_is_Some_2 l j Hlt) as [a Ha].
    exists c, a. split; [reflexivity|]. split; [exact Ha|].
    rewrite lookup_app_l by now rewrite length_map.
    now rewrite list_lookup_fmap, Ha.
  - destruct (IH (j - length l)%nat) as (c' & a & Hc & Ha & Hr); [lia|].
    assert (Ej : j = (j - length l + 1 * length l)%nat) by lia.
    exists c', a. rewrite Ej at 1 2.
    rewrite Nat.div_add, Nat.Div0.mod_add by assumption.
    rewrite Nat.add_1_r. split; [exact Hc|]. split; [exact Ha|].
    rewrite lookup_app_r by now rewrite length_map.
    now rewrite length_map.
Qed.

(** C7. Before any filtering the melt has exactly eight output rows per input
    row, and the output row at position [j] copies its subject id, age, sex
    and BMI from the single input row at position [j mod N]; its measurement
    name is the column at position [j / N] of the eight melted columns and its
    value is that column's entry in that input row. *)
Theorem melt_shape (df : list wide_row) :
  length (melt df) = (length df * 8)%nat /\
  forall j, (j < length df * 8)%nat ->
    exists w c r,
      df !! (j mod length df)%nat = Some w /\
      vvars !! (j / length df)%nat = Some c /\
      melt df !! j = Some r /\
      SEQN r = df_SEQN w /\ RIDAGEYR r = df_RIDAGEYR w /\
      RIAGENDR r = df_RIAGENDR w /\ BMXBMI r = df_BMXBMI w /\
      bpvar r = c /\ bp r = column c w.
Proof.
  rewrite melt_by_rows. split.
  - rewrite vvars_names. cbn [flat_map]. rewrite !length_app, !length_map. simpl. lia.
  - intros j Hj.
    destruct (lookup_blocks (fun c w => long_of w c) df vvars j) as (c & w & Hc & Hw & Hr).
    { rewrite vvars_names. simpl. lia. }
    exists w, c, (long_of w c). repeat split; assumption.
Qed.

Lemma melt_shape_witness :
  (9 < length two_subjects * 8)%nat /\
  exists w c r,
    two_subjects !! (9 mod length two_subjects)%nat = Some w /\
    vvars !! (9 / length two_subjects)%nat = Some c /\
    melt two_subjects !! 9%nat = Some r /\
    SEQN r = df_SEQN w /\ RIDAGEYR r = df_RIDAGEYR w /\
    RIAGENDR r = df_RIAGENDR w /\ BMXBMI r = df_BMXBMI w /\
    bpvar r = c /\ bp r = column c w.
Proof.
  assert (H : (9 < length two_subjects * 8)%nat) by (simpl; lia).
  split; [exact H|]. exact (proj2 (melt_shape two_subjects) 9%nat H).
Defined.

(** *** Group-by mean and join *)

Lemma filter_permutation {A} (p : A -> bool) (l l' : list A) :
  Permutation l l' -> Permutation (List.filter p l) (List.filter p l').
Proof.
  induction 1 as [|a l l' _ IH|a b l|l l' l'' _ IH1 _ IH2]; simpl.
  - constructor.
  - destruct (p a); [now constructor | assumption].
  - destruct (p a), (p b); try reflexivity. constructor.
  - now transitivity (List.filter p l').
Qed.

Lemma group_add_lookup (rows : list dx_row) (acc : gmap Z (Q * nat)) (s : Z) :
  foldl group_add acc rows !! s =
  foldl acc_step (acc !! s)
        (omap (fun r : dx_row => bp r)
              (List.filter (fun r : dx_row => (SEQN r =? s)%Z) rows)).
Proof.
  revert acc. induction rows as [|r rows IH]; intros acc; [reflexivity|].
  cbn [foldl List.filter]. rewrite IH. unfold group_add.
  destruct (Z.eqb_spec (SEQN r) s) as [E|N].
  - cbn [omap list_omap]. destruct (bp r) as [v|]; [|reflexivity].
    cbn [foldl]. f_equal. rewrite E.
    destruct (acc !! s) as [[t k]|]; now rewrite lookup_insert_eq.
  - f_equal. destruct (bp r) as [v|]; [|reflexivity].
    destruct (acc !! SEQN r) as [[t k]|]; now rewrite lookup_insert_ne.
Qed.

Lemma acc_step_some (vs : list Q) (t : Q) (k : nat) :
  foldl acc_step (Some (t, k)) vs = Some (foldl Qplus t vs, (k + length vs)%nat).
Proof.
  revert t k. induction vs as [|v vs IH]; intros t k; cbn [foldl length].
  - now rewrite Nat.add_0_r.
  - cbn [acc_step]. rewrite IH. do 2 f_equal. lia.
Qed.

Lemma foldl_Qplus_sum (vs : list Q) (t : Q) : (foldl Qplus t vs == t + Qsum vs)%Q.
Proof.
  revert t. induction vs as [|v vs IH]; intros t; cbn [foldl Qsum fold_right].
  - ring.
  - rewrite IH. unfold Qsum. ring.
Qed.

Lemma acc_step_none (vs : list Q) :
  foldl acc_step None vs =
  match vs with
  | [] => None
  | v :: vs' => Some (foldl Qplus v vs', length vs)
  end.
Proof. destruct vs as [|v vs]; [reflexivity|]. cbn [foldl acc_step]. now rewrite acc_step_some. Qed.

(** The series of per-subject means, key by key. *)
Lemma groupby_mean_lookup (rows : list dx_row) (s : Z) :
  let vs := omap (fun r : dx_row => bp r)
                 (List.filter (fun r : dx_row => (SEQN r =? s)%Z) rows) in
  match groupby_SEQN_bp_mean rows !! s with
  | None => vs = []
  | Some q => vs <> [] /\ (q == Qmean vs)%Q
  end.
Proof.
  intros vs. unfold groupby_SEQN_bp_mean.
  rewrite lookup_fmap, group_add_lookup, lookup_empty. fold vs.
  rewrite acc_step_none. destruct vs as [|v vs']; cbn [fmap option_fmap option_map]; [reflexivity|].
  split; [discriminate|]. cbn [fst snd]. unfold Qmean.
  rewrite foldl_Qplus_sum. cbn [Qsum fold_right]. reflexivity.
Qed.

Lemma in_merge_di_mean (dx : list dx_row) (means : gmap Z Q) (r : dxm_row) :
  In r (merge_di_mean dx means) <->
  In (obs r) dx /\ means !! SEQN r = Some (di_mean r).
Proof.
  unfold merge_di_mean. rewrite <- list_elem_of_In, list_elem_of_omap. split.
  - intros (r0 & Hin & Hr). apply list_elem_of_In in Hin.
    destruct (means !! SEQN r0) as [q|] eqn:E; [|discriminate].
    injection Hr as <-. cbn. split; assumption.
  - intros (Hin & Hq). exists (obs r). split; [now apply list_elem_of_In|].
    rewrite Hq. destruct r; reflexivity.
Qed.

(** *** Sorting *)

Lemma Sorted_weaken {A} (R R' : A -> A -> Prop) (l : list A) :
  (forall a b, R a b -> R' a b) -> Sorted R l -> Sorted R' l.
Proof.
  intros HR. induction 1 as [|a l _ IH Hd]; constructor; [assumption|].
  destruct Hd; constructor. now apply HR.
Qed.

Lemma merge_sort_permutes (l : list long_row) : Permutation (SEQNSort.sort l) l.
Proof. symmetry. apply SEQNSort.Permuted_sort. Qed.

Lemma merge_sort_ascends (l : list long_row) :
  Sorted (fun a b => (SEQN a <= SEQN b)%Z) (SEQNSort.sort l).
Proof.
  apply Sorted_weaken with (R := fun a b => is_true (SEQNOrder.leb a b)).
  - intros a b H. now apply Z.leb_le.
  - apply SEQNSort.Sorted_sort.
Qed.

Lemma StronglySorted_filter {A} (R : A -> A -> Prop) (p : A -> bool) (l : list A) :
  StronglySorted R l -> StronglySorted R (List.filter p l).
Proof.
  induction 1 as [|a l _ IH Hall]; simpl; [constructor|].
  destruct (p a); [|assumption]. constructor; [assumption|].
  rewrite List.Forall_forall in *. intros x Hx. apply Hall.
  now apply List.filter_In in Hx.
Qed.

Lemma StronglySorted_map {A B} (R : B -> B -> Prop) (f : A -> B) (l : list A) :
  StronglySorted (fun a b => R (f a) (f b)) l -> StronglySorted R (map f l).
Proof.
  induction 1 as [|a l _ IH Hall]; simpl; constructor; [assumption|].
  rewrite List.Forall_forall in *. intros x Hx.
  apply List.in_map_iff in Hx as (y & <- & Hy). now apply Hall.
Qed.

(** Two ascending lists of integers with the same elements are equal. *)
Lemma ascending_unique (l1 l2 : list Z) :
  StronglySorted Z.le l1 -> StronglySorted Z.le l2 -> Permutation l1 l2 -> l1 = l2.
Proof.
  intros S1. revert l2. induction S1 as [|a l1 S1 IH H1]; intros l2 S2 P.
  - apply Permutation_nil in P. now subst.
  - destruct S2 as [|b l2 S2 H2].
    + symmetry in P. apply Permutation_nil in P. discriminate.
    + assert (Hab : a = b).
      { rewrite List.Forall_forall in H1, H2.
        assert (Ia : In a (b :: l2)) by (eapply Permutation_in; [exact P | now left]).
        assert (Ib : In b (a :: l1)).
        { eapply Permutation_in; [symmetry; exact P | now left]. }
        destruct Ia as [->|Ia]; [reflexivity|].
        destruct Ib as [->|Ib]; [reflexivity|].
        apply H2 in Ia. apply H1 in Ib. lia. }
      subst b. f_equal. apply IH; [assumption|].
      now apply Permutation_cons_inv in P.
Qed.

(** *** Model frames *)

Lemma sublist_List_filter {A} (p : A -> bool) (l : list A) :
  List.filter p l `sublist_of` l.
Proof.
  induction l as [|a l IH]; simpl; [constructor|].
  destruct (p a); [now apply sublist_skip | now apply sublist_cons].
Qed.

Lemma frame_of_sublist (k : model_id) (dx : list dxm_row) : frame_of k dx `sublist_of` dx.
Proof. destruct k; simpl; try reflexivity; apply sublist_List_filter. Qed.

Lemma map_obs_loc_bpt (t : string) (dx : list dxm_row) :
  map obs (loc_bpt (fun r : dxm_row => bpt r) t dx) = loc_bpt bpt t (map obs dx).
Proof.
  unfold loc_bpt. induction dx as [|r dx IH]; simpl; [reflexivity|].
  destruct (String.eqb (bpt r) t); simpl; now rewrite IH.
Qed.

Lemma map_obs_frame_of (k : model_id) (dx : list dxm_row) :
  map obs (frame_of k dx) = frame_of_obs k (map obs dx).
Proof. destruct k; simpl; try reflexivity; apply map_obs_loc_bpt. Qed.

(** Which keys have a mean depends only on which rows are present. *)
Lemma groupby_mean_is_Some (rows : list dx_row) (s : Z) :
  is_Some (groupby_SEQN_bp_mean rows !! s) <->
  exists r : dx_row, In r rows /\ SEQN r = s /\ bp r <> None.
Proof.
  assert (H := groupby_mean_lookup rows s). cbv zeta in H.
  set (vs := omap _ _) in H.
  assert (Hvs : vs <> [] <-> exists r : dx_row, In r rows /\ SEQN r = s /\ bp r <> None).
  { split.
    - intros Hne. destruct vs as [|v vs'] eqn:E; [congruence|].
      assert (Hv : v ∈ vs) by (rewrite E; left).
      unfold vs in Hv. apply list_elem_of_omap in Hv as (r & Hr & Hb).
      apply list_elem_of_In, List.filter_In in Hr as [Hin Hs].
      exists r. split; [assumption|]. split; [now apply Z.eqb_eq|]. congruence.
    - intros (r & Hin & Hs & Hb) E.
      destruct (bp r) as [v|] eqn:Ev; [|congruence].
      assert (Hv : v ∈ vs).
      { unfold vs. apply list_elem_of_omap. exists r. split; [|exact Ev].
        apply list_elem_of_In, List.filter_In. split; [assumption|].
        now apply Z.eqb_eq. }
      rewrite E in Hv. inversion Hv. }
  destruct (groupby_SEQN_bp_mean rows !! s) as [q|].
  - split; [intros _; apply Hvs, H | intros _; eexists; reflexivity].
  - split; [intros [q Hq]; discriminate | intros Hex; apply Hvs in Hex; contradiction].
Qed.

Lemma keys_of_merge (dx : list dx_row) (means : gmap Z Q) :
  map (fun r : dxm_row => SEQN r) (merge_di_mean dx means) =
  List.filter (fun s => bool_decide (is_Some (means !! s)))
              (map (fun r : dx_row => SEQN r) dx).
Proof.
  unfold merge_di_mean. induction dx as [|r dx IH]; [reflexivity|].
  cbn [omap list_omap map List.filter]. fold (omap (fun r => mkDxm r <$> means !! SEQN r) dx).
  destruct (means !! SEQN r) as [q|] eqn:E; cbn [fmap option_fmap option_map].
  - rewrite bool_decide_true by (eexists; reflexivity). cbn [map]. now rewrite <- IH.
  - rewrite bool_decide_false by (intros [q Hq]; discriminate). exact IH.
Qed.


(** *** The pipeline, for any sort that rearranges the rows into ascending
    subject ids *)

Lemma in_melt (df : list wide_row) (w : wide_row) (c : string) :
  In w df -> In c vvars -> In (long_of w c) (melt df).
Proof.
  intros Hw Hc. rewrite melt_by_rows. apply List.in_flat_map.
  exists c. split; [assumption|]. now apply (List.in_map (fun w => long_of w c)).
Qed.

Lemma in_melt_inv (df : list wide_row) (r : long_row) :
  In r (melt df) -> exists w c, In w df /\ In c vvars /\ r = long_of w c.
Proof.
  rewrite melt_by_rows. intros H. apply List.in_flat_map in H as (c & Hc & H).
  apply List.in_map_iff in H as (w & <- & Hw). now exists w, c.
Qed.

(** On a melted row the derived type is "DI" exactly when the measurement
    name is one of [divars]. *)
Lemma bpt_of_melted (w : wide_row) (c : string) :
  In c vvars ->
  String.eqb (bpt (add_derived (long_of w c))) "DI" = existsb (String.eqb c) divars.
Proof.
  intros Hc. rewrite vvars_names in Hc. cbn [In] in Hc.
  repeat destruct Hc as [<-|Hc]; try contradiction; vm_compute; reflexivity.
Qed.

Lemma subject_readings_by_name (s : Z) (l : list long_row) :
  (forall r, In r l -> exists w c, In c vvars /\ r = long_of w c) ->
  subject_readings "DI" s (map add_derived l) = diastolic_readings s l.
Proof.
  unfold subject_readings, diastolic_readings, loc_bpt.
  induction l as [|r l IH]; intros H; [reflexivity|].
  specialize (IH (fun r' Hr' => H r' (or_intror Hr'))).
  destruct (H r (or_introl eq_refl)) as (w & c & Hc & ->).
  cbn [map List.filter]. rewrite (bpt_of_melted w c Hc).
  change (bpvar (long_of w c)) with c.
  change (SEQN (long_of w c)) with (df_SEQN w).
  destruct (existsb (String.eqb c) divars); cbn [List.filter];
    [change (SEQN (add_derived (long_of w c))) with (df_SEQN w)|];
    destruct (df_SEQN w =? s)%Z; cbn [andb]; try exact IH;
    cbn [omap list_omap bp base add_derived long_of];
    destruct (column c w); [f_equal|]; exact IH.
Qed.

Section PipelineFacts.

Variable sort_values_by_SEQN : list long_row -> list long_row.

Hypothesis sort_permutes :
  forall l, Permutation (sort_values_by_SEQN l) l.

Hypothesis sort_ascends :
  forall l, Sorted (fun a b => (SEQN a <= SEQN b)%Z) (sort_values_by_SEQN l).

Lemma dx_filtered_permutation (df : list wide_row) :
  Permutation (dx_filtered sort_values_by_SEQN df) (dropna (melt df)).
Proof. unfold dx_filtered, dropna. apply filter_permutation, sort_permutes. Qed.

(** C6. The complete-case filter acts on the long table: the filtered table
    holds, up to order, exactly the melted rows that have no missing entry.
    So for a subject whose age, sex and BMI are present, the long row of a
    measurement column is kept precisely when that one reading is present,
    whatever the subject's other readings are. *)
Theorem dropna_after_melt (df : list wide_row) :
  Permutation (dx_filtered sort_values_by_SEQN df) (List.filter notna (melt df)) /\
  forall w c,
    In w df -> In c vvars ->
    df_RIDAGEYR w <> None -> df_RIAGENDR w <> None -> df_BMXBMI w <> None ->
    (In (long_of w c) (dx_filtered sort_values_by_SEQN df) <-> column c w <> None).
Proof.
  split; [apply dx_filtered_permutation|].
  intros w c Hw Hc Ha Hg Hb.
  assert (Hn : notna (long_of w c) = true <-> column c w <> None).
  { unfold notna, long_of. cbn.
    destruct (df_RIDAGEYR w), (df_RIAGENDR w), (df_BMXBMI w), (column c w);
      split; congruence. }
  rewrite <- Hn. split.
  - intros Hin. eapply Permutation_in in Hin; [|apply dx_filtered_permutation].
    now apply List.filter_In in Hin.
  - intros Hna. eapply Permutation_in; [symmetry; apply dx_filtered_permutation|].
    apply List.filter_In. split; [now apply in_melt | assumption].
Qed.

Lemma subject_readings_filtered (df : list wide_row) (s : Z) :
  subject_readings "DI" s (dx_derived sort_values_by_SEQN df) =
  diastolic_readings s (dx_filtered sort_values_by_SEQN df).
Proof.
  unfold dx_derived. apply subject_readings_by_name.
  intros r Hr. eapply Permutation_in in Hr; [|apply dx_filtered_permutation].
  apply List.filter_In in Hr as [Hr _].
  apply in_melt_inv in Hr as (w & c & _ & Hc & ->). now exists w, c.
Qed.

(** The mean attached by the join, in terms of the rows the code selects with
    [bpt == "DI"]. *)
Lemma di_mean_of_subject_readings (df : list wide_row) (s : Z) :
  let vs := subject_readings "DI" s (dx_derived sort_values_by_SEQN df) in
  (1 <= length vs)%nat ->
  (forall r0 : dx_row,
      In r0 (dx_derived sort_values_by_SEQN df) -> SEQN r0 = s ->
      exists q, In (mkDxm r0 q) (dx_joined sort_values_by_SEQN df)) /\
  (forall r : dxm_row,
      In r (dx_joined sort_values_by_SEQN df) -> SEQN r = s ->
      (di_mean r == Qsum vs / inject_Z (Z.of_nat (length vs)))%Q).
Proof.
  intros vs Hk.
  assert (H := groupby_mean_lookup
                 (loc_bpt bpt "DI" (dx_derived sort_values_by_SEQN df)) s).
  cbv zeta in H. fold (subject_readings "DI" s (dx_derived sort_values_by_SEQN df)) in H.
  fold vs in H. fold (di_mean_series sort_values_by_SEQN df) in H.
  split.
  - intros r0 Hin Hs.
    destruct (di_mean_series sort_values_by_SEQN df !! s) as [q|] eqn:E.
    + exists q. apply in_merge_di_mean. cbn. rewrite Hs. split; assumption.
    + rewrite H in Hk. simpl in Hk. lia.
  - intros r Hin Hs. apply in_merge_di_mean in Hin as [_ Hq].
    fold (di_mean_series sort_values_by_SEQN df) in Hq.
    rewrite Hs in Hq. rewrite Hq in H. apply H.
Qed.

(** C4. Take the rows of the filtered long table that belong to subject [s]
    and are named by one of the four diastolic columns, and let [vs] be their
    [k] readings.  If [k >= 1], every row of that subject, systolic rows
    included, enters the joined table, and the [di_mean] attached to it equals
    the sum of exactly those [k] readings divided by [k]: rows of another
    subject and rows named by a systolic column are not among [vs]. *)
Theorem di_mean_is_subject_mean (df : list wide_row) (s : Z) :
  let vs := diastolic_readings s (dx_filtered sort_values_by_SEQN df) in
  (1 <= length vs)%nat ->
  (forall r0 : long_row,
      In r0 (dx_filtered sort_values_by_SEQN df) -> SEQN r0 = s ->
      exists q, In (mkDxm (add_derived r0) q) (dx_joined sort_values_by_SEQN df)) /\
  (forall r : dxm_row,
      In r (dx_joined sort_values_by_SEQN df) -> SEQN r = s ->
      (di_mean r == Qsum vs / inject_Z (Z.of_nat (length vs)))%Q).
Proof.
  intros vs Hk. unfold vs in *. rewrite <- subject_readings_filtered in *.
  destruct (di_mean_of_subject_readings df s Hk) as [A B].
  split; [|exact B].
  intros r0 Hin Hs. apply (A (add_derived r0)); [|exact Hs].
  unfold dx_derived. now apply (List.in_map add_derived).
Qed.

Lemma in_model_frame (k : model_id) (df : list wide_row) (r : dxm_row) :
  In r (model_frame sort_values_by_SEQN k df) ->
  In r (dx_joined sort_values_by_SEQN df).
Proof.
  intros Hin. apply list_elem_of_In. apply list_elem_of_In in Hin.
  eapply elem_of_sublist; [exact Hin|].
  unfold model_frame, dx_final, iloc_0_5000.
  etransitivity; [apply frame_of_sublist | apply sublist_take].
Qed.

(** C3 (amended). A subject without any diastolic reading in the filtered
    long table has no entry in the series of diastolic means, and the inner
    join drops all of that subject's rows: no frame of any of the eleven
    models contains a row of that subject. *)
Theorem no_diastolic_no_rows (df : list wide_row) (s : Z) :
  subject_readings "DI" s (dx_derived sort_values_by_SEQN df) = [] ->
  di_mean_series sort_values_by_SEQN df !! s = None /\
  forall (k : model_id) (r : dxm_row),
    In r (model_frame sort_values_by_SEQN k df) -> SEQN r <> s.
Proof.
  intros Hvs.
  assert (H := groupby_mean_lookup
                 (loc_bpt bpt "DI" (dx_derived sort_values_by_SEQN df)) s).
  cbv zeta in H. fold (subject_readings "DI" s (dx_derived sort_values_by_SEQN df)) in H.
  fold (di_mean_series sort_values_by_SEQN df) in H.
  assert (E : di_mean_series sort_values_by_SEQN df !! s = None).
  { destruct (di_mean_series sort_values_by_SEQN df !! s); [|reflexivity].
    destruct H as [H _]. contradiction. }
  split; [exact E|].
  intros k r Hin Hs. apply in_model_frame, in_merge_di_mean in Hin as [_ Hq].
  fold (di_mean_series sort_values_by_SEQN df) in Hq. rewrite Hs in Hq. congruence.
Qed.

Lemma dx_derived_permutation (df : list wide_row) :
  Permutation (dx_derived sort_values_by_SEQN df)
              (dx_derived (fun l => l) df).
Proof. unfold dx_derived. apply Permutation_map, dx_filtered_permutation. Qed.

Lemma has_mean_invariant (df : list wide_row) (s : Z) :
  is_Some (di_mean_series sort_values_by_SEQN df !! s) <->
  is_Some (di_mean_series (fun l => l) df !! s).
Proof.
  unfold di_mean_series. rewrite !groupby_mean_is_Some.
  assert (P : Permutation (loc_bpt bpt "DI" (dx_derived sort_values_by_SEQN df))
                          (loc_bpt bpt "DI" (dx_derived (fun l => l) df))).
  { apply filter_permutation, dx_derived_permutation. }
  split; intros (r & Hin & Hr); exists r; (split; [|exact Hr]).
  - eapply Permutation_in; [exact P | exact Hin].
  - eapply Permutation_in; [symmetry; exact P | exact Hin].
Qed.

Lemma dx_derived_keys_ascend (df : list wide_row) :
  StronglySorted Z.le
    (map (fun r : dx_row => SEQN r) (dx_derived sort_values_by_SEQN df)).
Proof.
  unfold dx_derived. rewrite map_map. cbn [add_derived base].
  apply (StronglySorted_map Z.le SEQN).
  unfold dx_filtered, dropna. apply StronglySorted_filter.
  apply Sorted_StronglySorted; [|apply sort_ascends].
  intros a b c. apply Z.le_trans.
Qed.

Lemma joined_keys_ascend (df : list wide_row) :
  StronglySorted Z.le
    (map (fun r : dxm_row => SEQN r) (dx_joined sort_values_by_SEQN df)).
Proof.
  unfold dx_joined. rewrite keys_of_merge.
  apply StronglySorted_filter, dx_derived_keys_ascend.
Qed.

Lemma joined_keys_permutation (df : list wide_row) :
  Permutation
    (map (fun r : dxm_row => SEQN r) (dx_joined sort_values_by_SEQN df))
    (map (fun r : dxm_row => SEQN r) (dx_joined (fun l => l) df)).
Proof.
  unfold dx_joined. rewrite !keys_of_merge.
  rewrite (List.filter_ext _
             (fun s => bool_decide (is_Some (di_mean_series (fun l => l) df !! s)))).
  - apply filter_permutation, Permutation_map, dx_derived_permutation.
  - intros s. apply bool_decide_ext, has_mean_invariant.
Qed.

End PipelineFacts.

(** The subject-id column of the joined table does not depend on which
    admissible sort is used. *)
Lemma joined_keys_unique
    (sort1 sort2 : list long_row -> list long_row) (df : list wide_row) :
  (forall l, Permutation (sort1 l) l) ->
  (forall l, Sorted (fun a b => (SEQN a <= SEQN b)%Z) (sort1 l)) ->
  (forall l, Permutation (sort2 l) l) ->
  (forall l, Sorted (fun a b => (SEQN a <= SEQN b)%Z) (sort2 l)) ->
  map (fun r : dxm_row => SEQN r) (dx_joined sort1 df) =
  map (fun r : dxm_row => SEQN r) (dx_joined sort2 df).
Proof.
  intros P1 S1 P2 S2. apply ascending_unique.
  - now apply joined_keys_ascend.
  - now apply joined_keys_ascend.
  - etransitivity; [now apply joined_keys_permutation|].
    symmetry. now apply joined_keys_permutation.
Qed.

Lemma lookup_key (l : list dxm_row) (i : nat) (s : Z) :
  map (fun r : dxm_row => SEQN r) l !! i = Some s ->
  exists r : dxm_row, l !! i = Some r /\ SEQN r = s.
Proof.
  intros H. rewrite list_lookup_fmap in H.
  destruct (l !! i) as [r|]; [|discriminate].
  exists r. split; [reflexivity|]. now injection H.
Qed.

(** In the cohort the rows at positions 4999 and 5000 of the joined table
    belong to the same subject. *)
Lemma cohort_boundary :
  map (fun r : dxm_row => SEQN r) (dx_joined SEQNSort.sort (cohort 72))
    !! 4999%nat = Some 626%Z /\
  map (fun r : dxm_row => SEQN r) (dx_joined SEQNSort.sort (cohort 72))
    !! 5000%nat = Some 626%Z.
Proof. vm_compute. split; reflexivity. Qed.

(** *** The pipeline evaluated with merge sort *)

(** On [two_subjects], subject 2 has two systolic rows in the filtered long
    table and no diastolic reading; the frames of [model3] and of [model2]
    both consist of the systolic rows of subject 1 only. *)
Lemma systolic_only_subject_dropped :
  map (fun r : long_row => (SEQN r, bpvar r)) (dx_filtered SEQNSort.sort two_subjects) =
    [ (1%Z, "BPXSY1"%string); (1%Z, "BPXSY2"%string); (1%Z, "BPXDI1"%string);
      (1%Z, "BPXDI2"%string); (2%Z, "BPXSY1"%string); (2%Z, "BPXSY2"%string) ] /\
  subject_readings "DI" 2 (dx_derived SEQNSort.sort two_subjects) = [] /\
  map show (model_frame SEQNSort.sort model3 two_subjects) =
    [ (1%Z, "BPXSY1"%string, 144 # 2); (1%Z, "BPXSY2"%string, 144 # 2) ] /\
  map show (model_frame SEQNSort.sort model2 two_subjects) =
    [ (1%Z, "BPXSY1"%string, 144 # 2); (1%Z, "BPXSY2"%string, 144 # 2) ] /\
  ~ (exists r : dxm_row,
        In r (model_frame SEQNSort.sort model2 two_subjects) /\ SEQN r = 2%Z).
Proof.
  split; [vm_compute; reflexivity|].
  split; [vm_compute; reflexivity|].
  split; [vm_compute; reflexivity|].
  assert (E : map show (model_frame SEQNSort.sort model2 two_subjects) =
    [ (1%Z, "BPXSY1"%string, 144 # 2); (1%Z, "BPXSY2"%string, 144 # 2) ])
    by (vm_compute; reflexivity).
  split; [exact E|].
  intros (r & Hin & Hs).
  apply (List.in_map show) in Hin. rewrite E in Hin. unfold show in Hin.
  destruct Hin as [H|[H|[]]]; injection H as H _ _; rewrite Hs in H; discriminate.
Qed.

(** What the order of rows with equal ids can do, shown with merge sort's
    order (the order pandas gives these rows may differ).  The cohorts
    [cohort 72] and [cohort 80] differ in one diastolic reading of subject
    626.  With merge sort their joined tables agree on the first 5000 rows in
    every column other than [di_mean]; the changed reading sits in the last
    row, beyond position 5000; yet the last row of the frame of [model3], a
    systolic row of subject 626 inside the first 5000 rows, carries a
    different [di_mean] in the two runs. *)
Lemma late_diastolic_reading_reaches_model3 :
  let a := dx_joined SEQNSort.sort (cohort 72) in
  let b := dx_joined SEQNSort.sort (cohort 80) in
  take 5000 (map obs a) = take 5000 (map obs b) /\
  map (fun r : dxm_row => (SEQN r, bpvar r, bp r)) (drop 5000 a) =
    [ (626%Z, "BPXSY2"%string, Some 112%Q); (626%Z, "BPXSY3"%string, Some 114%Q);
      (626%Z, "BPXSY4"%string, Some 116%Q); (626%Z, "BPXDI1"%string, Some 70%Q);
      (626%Z, "BPXDI2"%string, Some 72%Q) ] /\
  map (fun r : dxm_row => (SEQN r, bpvar r, bp r)) (drop 5000 b) =
    [ (626%Z, "BPXSY2"%string, Some 112%Q); (626%Z, "BPXSY3"%string, Some 114%Q);
      (626%Z, "BPXSY4"%string, Some 116%Q); (626%Z, "BPXDI1"%string, Some 70%Q);
      (626%Z, "BPXDI2"%string, Some 80%Q) ] /\
  map show (drop 2500 (model_frame SEQNSort.sort model3 (cohort 72))) =
    [ (626%Z, "BPXSY1"%string, 292 # 4) ] /\
  map show (drop 2500 (model_frame SEQNSort.sort model3 (cohort 80))) =
    [ (626%Z, "BPXSY1"%string, 300 # 4) ] /\
  ~ (292 # 4 == 300 # 4)%Q.
Proof.
  cbv zeta. split; [vm_compute; reflexivity|].
  split; [vm_compute; reflexivity|].
  split; [vm_compute; reflexivity|].
  split; [vm_compute; reflexivity|].
  split; [vm_compute; reflexivity|].
  intros H. vm_compute in H. discriminate.
Qed.

Lemma dropna_after_melt_witness :
  let w := person 1 (Some 110%Q) (Some 112%Q) None None (Some 70%Q) (Some 74%Q) None None in
  In w two_subjects /\
  In (long_of w "BPXSY2") (dx_filtered SEQNSort.sort two_subjects) /\
  ~ In (long_of w "BPXSY3") (dx_filtered SEQNSort.sort two_subjects).
Proof.
  intros w.
  assert (Hw : In w two_subjects) by (left; reflexivity).
  assert (H2 : In "BPXSY2"%string vvars) by (right; left; reflexivity).
  assert (H3 : In "BPXSY3"%string vvars) by (right; right; left; reflexivity).
  assert (Ha : df_RIDAGEYR w <> None) by discriminate.
  assert (Hg : df_RIAGENDR w <> None) by discriminate.
  assert (Hb : df_BMXBMI w <> None) by discriminate.
  destruct (dropna_after_melt SEQNSort.sort merge_sort_permutes two_subjects) as [_ H].
  split; [exact Hw|]. split.
  - apply (H w "BPXSY2"%string Hw H2 Ha Hg Hb). discriminate.
  - intros Hin. apply (H w "BPXSY3"%string Hw H3 Ha Hg Hb) in Hin.
    apply Hin. reflexivity.
Defined.

(** Subject 1 of [two_subjects] has the systolic readings 110 and 112 and the
    diastolic readings 70 and 74: each of its rows, the row of the first
    systolic reading among them, carries the mean 72. *)
Lemma di_mean_is_subject_mean_witness :
  length (diastolic_readings 1 (dx_filtered SEQNSort.sort two_subjects)) = 2%nat /\
  (Qsum (diastolic_readings 1 (dx_filtered SEQNSort.sort two_subjects)) == 144)%Q /\
  (exists r : dxm_row,
      In r (dx_joined SEQNSort.sort two_subjects) /\ SEQN r = 1%Z /\
      bpvar r = "BPXSY1"%string) /\
  forall r : dxm_row,
    In r (dx_joined SEQNSort.sort two_subjects) -> SEQN r = 1%Z ->
    (di_mean r == 72)%Q.
Proof.
  assert (E : length (diastolic_readings 1 (dx_filtered SEQNSort.sort two_subjects))
              = 2%nat) by (vm_compute; reflexivity).
  assert (Hk : (1 <= length (diastolic_readings 1
                               (dx_filtered SEQNSort.sort two_subjects)))%nat)
    by (rewrite E; lia).
  assert (M : (Qsum (diastolic_readings 1 (dx_filtered SEQNSort.sort two_subjects))
               / inject_Z (Z.of_nat (length (diastolic_readings 1
                                        (dx_filtered SEQNSort.sort two_subjects))))
               == 72)%Q) by (vm_compute; reflexivity).
  split; [exact E|]. split; [vm_compute; reflexivity|]. split.
  - eexists. split; [vm_compute; left; reflexivity|]. split; reflexivity.
  - intros r Hin Hs.
    exact (Qeq_trans _ _ _
             (proj2 (di_mean_is_subject_mean SEQNSort.sort merge_sort_permutes
                       two_subjects 1%Z Hk) r Hin Hs) M).
Defined.

Lemma no_diastolic_no_rows_witness :
  subject_readings "DI" 2 (dx_derived SEQNSort.sort two_subjects) = [] /\
  forall (k : model_id) (r : dxm_row),
    In r (model_frame SEQNSort.sort k two_subjects) -> SEQN r <> 2%Z.
Proof.
  assert (H : subject_readings "DI" 2 (dx_derived SEQNSort.sort two_subjects) = [])
    by (vm_compute; reflexivity).
  split; [exact H|].
  exact (proj2 (no_diastolic_no_rows SEQNSort.sort two_subjects 2%Z H)).
Defined.

(** *** Rows of the model frames *)

Lemma notna_long_of (w : wide_row) (c : string) :
  notna (long_of w c) = true ->
  df_RIDAGEYR w <> None /\ df_RIAGENDR w <> None /\ df_BMXBMI w <> None /\
  column c w <> None.
Proof.
  unfold notna, long_of. cbn.
  destruct (df_RIDAGEYR w), (df_RIAGENDR w), (df_BMXBMI w), (column c w);
    intros H; try discriminate; repeat split; discriminate.
Qed.

Lemma in_dx_derived_inv
    (sort_values_by_SEQN : list long_row -> list long_row) (df : list wide_row)
    (r : dx_row) :
  (forall l, Permutation (sort_values_by_SEQN l) l) ->
  In r (dx_derived sort_values_by_SEQN df) ->
  exists w c, In w df /\ In c vvars /\ r = add_derived (long_of w c) /\
              notna (long_of w c) = true.
Proof.
  intros Hperm H. unfold dx_derived in H.
  apply List.in_map_iff in H as (l & <- & Hl).
  eapply Permutation_in in Hl; [|now apply dx_filtered_permutation].
  apply List.filter_In in Hl as [Hl Hn].
  apply in_melt_inv in Hl as (w & c & Hw & Hc & ->). now exists w, c.
Qed.

(** X5. Every row of every model frame comes from one wide row and one of
    the eight measurement columns: its derived columns are those computed
    from that pair, none of its age, sex, BMI and reading is missing, and its
    [di_mean] is the entry of the series of diastolic means for its subject. *)
Theorem frame_rows_trace_to_wide_rows
    (sort_values_by_SEQN : list long_row -> list long_row) (df : list wide_row)
    (k : model_id) (r : dxm_row) :
  (forall l, Permutation (sort_values_by_SEQN l) l) ->
  In r (model_frame sort_values_by_SEQN k df) ->
  exists w c,
    In w df /\ In c vvars /\ obs r = add_derived (long_of w c) /\
    df_RIDAGEYR w <> None /\ df_RIAGENDR w <> None /\ df_BMXBMI w <> None /\
    column c w <> None /\
    di_mean_series sort_values_by_SEQN df !! df_SEQN w = Some (di_mean r).
Proof.
  intros Hperm Hin. apply in_model_frame, in_merge_di_mean in Hin as [Hin Hq].
  apply (in_dx_derived_inv _ _ _ Hperm) in Hin as (w & c & Hw & Hc & E & Hn).
  apply notna_long_of in Hn as (Ha & Hg & Hb & Hv).
  exists w, c. repeat (split; [assumption|]).
  fold (di_mean_series sort_values_by_SEQN df) in Hq.
  replace (df_SEQN w) with (SEQN r); [exact Hq|]. now rewrite E.
Qed.

Lemma derived_of_column (w : wide_row) (c : string) :
  In c vvars ->
  let r := add_derived (long_of w c) in
  (bpt r = "SY"%string \/ bpt r = "DI"%string) /\
  (1 <= bpi r <= 4)%Z /\
  bpvar r = ("BPX" +:+ bpt r +:+ pretty (bpi r))%string /\
  (bpt r = "SY"%string <-> In c syvars) /\
  (bpt r = "DI"%string <-> In c divars).
Proof.
  intros Hc. rewrite vvars_names in Hc. cbn [In] in Hc.
  assert (Hsy : forall a, In a syvars <->
     a = "BPXSY1"%string \/ a = "BPXSY2"%string \/ a = "BPXSY3"%string \/
     a = "BPXSY4"%string).
  { intros a. change syvars with ["BPXSY1"; "BPXSY2"; "BPXSY3"; "BPXSY4"]%string.
    cbn [In]. intuition congruence. }
  assert (Hdi : forall a, In a divars <->
     a = "BPXDI1"%string \/ a = "BPXDI2"%string \/ a = "BPXDI3"%string \/
     a = "BPXDI4"%string).
  { intros a. change divars with ["BPXDI1"; "BPXDI2"; "BPXDI3"; "BPXDI4"]%string.
    cbn [In]. intuition congruence. }
  intros r. unfold r. rewrite Hsy, Hdi.
  cbn [add_derived long_of bpt bpi bpvar base].
  repeat destruct Hc as [<-|Hc]; try contradiction;
    repeat match goal with
      | |- context [digit_at_5 ?a] =>
          let v := eval vm_compute in (digit_at_5 a) in change (digit_at_5 a) with v
      | |- context [String.substring 3 2 ?a] =>
          let v := eval vm_compute in (String.substring 3 2 a) in
          change (String.substring 3 2 a) with v
      end;
    (split; [auto|]); (split; [lia|]); (split; [vm_compute; reflexivity|]);
    split; split; try discriminate; intuition (try discriminate; auto).
Qed.

(** X6. In every row of every model frame the measurement type is "SY" or
    "DI", the repetition index lies between 1 and 4, the measurement name is
    "BPX" followed by the type and the index, and [female] is 0 or 1. *)
Theorem derived_columns_well_formed
    (sort_values_by_SEQN : list long_row -> list long_row) (df : list wide_row)
    (k : model_id) (r : dxm_row) :
  (forall l, Permutation (sort_values_by_SEQN l) l) ->
  In r (model_frame sort_values_by_SEQN k df) ->
  (bpt r = "SY"%string \/ bpt r = "DI"%string) /\
  (1 <= bpi r <= 4)%Z /\
  bpvar r = ("BPX" +:+ bpt r +:+ pretty (bpi r))%string /\
  (female r = 0 \/ female r = 1)%Z.
Proof.
  intros Hperm Hin.
  apply in_model_frame, in_merge_di_mean in Hin as [Hin _].
  apply (in_dx_derived_inv _ _ _ Hperm) in Hin as (w & c & _ & Hc & E & _).
  destruct (derived_of_column w c Hc) as (Ht & Hi & Hv & _).
  rewrite E. repeat (split; [assumption|]).
  cbn. destruct (is_value _ _); auto.
Qed.

Lemma filter_split_length {A} (p q : A -> bool) (l : list A) :
  (forall x, In x l -> p x = negb (q x)) ->
  (length (List.filter p l) + length (List.filter q l) = length l)%nat.
Proof.
  induction l as [|a l IH]; intros H; [reflexivity|].
  cbn [List.filter]. rewrite (H a) by now left.
  assert (IH' := IH (fun x Hx => H x (or_intror Hx))).
  destruct (q a); cbn [negb length]; lia.
Qed.

(** X7. The systolic frame [ds2] and the diastolic frame [ds3] split the
    truncated table [dx]: their sizes add up to that of [dx], and each row of
    [dx] lies in the one that matches its type and not in both. *)
Theorem systolic_and_diastolic_frames_partition
    (sort_values_by_SEQN : list long_row -> list long_row) (df : list wide_row) :
  (forall l, Permutation (sort_values_by_SEQN l) l) ->
  (length (model_frame sort_values_by_SEQN model2 df)
   + length (model_frame sort_values_by_SEQN model4 df)
   = length (model_frame sort_values_by_SEQN model1 df))%nat /\
  (forall r : dxm_row,
      In r (model_frame sort_values_by_SEQN model1 df) ->
      (In r (model_frame sort_values_by_SEQN model2 df) <-> bpt r = "SY"%string) /\
      (In r (model_frame sort_values_by_SEQN model4 df) <-> bpt r = "DI"%string) /\
      ~ (In r (model_frame sort_values_by_SEQN model2 df) /\
         In r (model_frame sort_values_by_SEQN model4 df))).
Proof.
  intros Hperm.
  assert (Hrow : forall r : dxm_row,
             In r (model_frame sort_values_by_SEQN model1 df) ->
             bpt r = "SY"%string \/ bpt r = "DI"%string).
  { intros r Hr. apply in_model_frame, in_merge_di_mean in Hr as [Hr _].
    apply (in_dx_derived_inv _ _ _ Hperm) in Hr as (w & c & _ & Hc & E & _).
    rewrite E. apply (derived_of_column w c Hc). }
  unfold model_frame, frame_of, loc_bpt in *. split.
  - apply filter_split_length. intros r Hr.
    destruct (Hrow r Hr) as [-> | ->]; reflexivity.
  - intros r Hr. rewrite !List.filter_In, !String.eqb_eq.
    destruct (Hrow r Hr) as [E | E]; rewrite E;
      repeat split; try tauto; intros; intuition discriminate.
Qed.

(** X8. In every row of every model frame exactly one of the type
    indicators [sy], [di] is 1; the three per-reading indicators of a type add
    up to the type indicator for readings 1 to 3 and to 0 for reading 4, which
    has no indicator of its own; the centred index lies between 0 and 3. *)
Theorem indicator_columns
    (sort_values_by_SEQN : list long_row -> list long_row) (df : list wide_row)
    (k : model_id) (r : dxm_row) :
  (forall l, Permutation (sort_values_by_SEQN l) l) ->
  In r (model_frame sort_values_by_SEQN k df) ->
  (sy r + di r = 1)%Z /\
  (sy1 r + sy2 r + sy3 r = if (bpi r =? 4)%Z then 0 else sy r)%Z /\
  (di1 r + di2 r + di3 r = if (bpi r =? 4)%Z then 0 else di r)%Z /\
  (0 <= bpi_cen r <= 3)%Z.
Proof.
  intros Hperm Hin.
  apply in_model_frame, in_merge_di_mean in Hin as [Hin _].
  apply (in_dx_derived_inv _ _ _ Hperm) in Hin as (w & c & _ & Hc & E & _).
  rewrite E. rewrite vvars_names in Hc. cbn [In] in Hc.
  unfold sy, di, sy1, sy2, sy3, di1, di2, di3, bpi_cen.
  cbn [add_derived long_of bpt bpi bpvar base].
  repeat destruct Hc as [<-|Hc]; try contradiction;
    vm_compute; repeat split; discriminate.
Qed.

(** *** Order of the rows *)

Lemma StronglySorted_take {A} (R : A -> A -> Prop) (n : nat) (l : list A) :
  StronglySorted R l -> StronglySorted R (take n l).
Proof.
  intros H. revert n. induction H as [|a l _ IH Hall]; intros [|n]; cbn; try constructor.
  - apply IH.
  - rewrite List.Forall_forall in *. intros x Hx. apply Hall.
    apply list_elem_of_In in Hx. apply list_elem_of_In.
    eapply elem_of_sublist; [exact Hx | apply sublist_take].
Qed.

Lemma ascending_lookup (l : list Z) (i j : nat) (a b : Z) :
  StronglySorted Z.le l -> (i <= j)%nat ->
  l !! i = Some a -> l !! j = Some b -> (a <= b)%Z.
Proof.
  intros H. revert i j. induction H as [|x l _ IH Hall]; intros i j Hij Hi Hj.
  - discriminate.
  - destruct i as [|i], j as [|j]; cbn in Hi, Hj; try lia.
    + injection Hi as <-. injection Hj as <-. lia.
    + injection Hi as <-. rewrite List.Forall_forall in Hall. apply Hall.
      apply list_elem_of_In. eapply list_elem_of_lookup_2. exact Hj.
    + apply (IH i j); [lia | assumption | assumption].
Qed.

(** X9. The table handed to the models is in ascending subject order, so
    the rows of one subject form one contiguous block. *)
Theorem dx_final_ascending
    (sort_values_by_SEQN : list long_row -> list long_row) (df : list wide_row) :
  (forall l, Permutation (sort_values_by_SEQN l) l) ->
  (forall l, Sorted (fun a b => (SEQN a <= SEQN b)%Z) (sort_values_by_SEQN l)) ->
  StronglySorted Z.le
    (map (fun r : dxm_row => SEQN r) (dx_final sort_values_by_SEQN df)) /\
  forall (i j k : nat) (ri rj rk : dxm_row),
    (i <= j <= k)%nat ->
    dx_final sort_values_by_SEQN df !! i = Some ri ->
    dx_final sort_values_by_SEQN df !! j = Some rj ->
    dx_final sort_values_by_SEQN df !! k = Some rk ->
    SEQN ri = SEQN rk -> SEQN rj = SEQN ri.
Proof.
  intros Hperm Hasc.
  assert (S : StronglySorted Z.le
                (map (fun r : dxm_row => SEQN r) (dx_final sort_values_by_SEQN df))).
  { unfold dx_final, iloc_0_5000. rewrite <- firstn_map.
    apply StronglySorted_take. now apply joined_keys_ascend. }
  split; [exact S|].
  intros i j k ri rj rk [Hij Hjk] Hi Hj Hk E.
  assert (L : forall (a : nat) (r : dxm_row),
             dx_final sort_values_by_SEQN df !! a = Some r ->
             map (fun r : dxm_row => SEQN r) (dx_final sort_values_by_SEQN df) !! a
             = Some (SEQN r)).
  { intros a r H. rewrite list_lookup_fmap, H. reflexivity. }
  assert (H1 := ascending_lookup _ i j _ _ S Hij (L i ri Hi) (L j rj Hj)).
  assert (H2 := ascending_lookup _ j k _ _ S Hjk (L j rj Hj) (L k rk Hk)).
  lia.
Qed.

(** *** The joined table *)

(** X10. In the joined table [di_mean] is a subject-level column: rows with
    the same subject id carry the same value; and every subject present has a
    diastolic row in the joined table. *)
Theorem di_mean_is_subject_level
    (sort_values_by_SEQN : list long_row -> list long_row) (df : list wide_row) :
  (forall r1 r2 : dxm_row,
      In r1 (dx_joined sort_values_by_SEQN df) ->
      In r2 (dx_joined sort_values_by_SEQN df) ->
      SEQN r1 = SEQN r2 -> di_mean r1 = di_mean r2) /\
  (forall r : dxm_row,
      In r (dx_joined sort_values_by_SEQN df) ->
      exists r' : dxm_row,
        In r' (dx_joined sort_values_by_SEQN df) /\
        SEQN r' = SEQN r /\ bpt r' = "DI"%string /\ di_mean r' = di_mean r).
Proof.
  split.
  - intros r1 r2 H1 H2 E.
    apply in_merge_di_mean in H1 as [_ H1]. apply in_merge_di_mean in H2 as [_ H2].
    rewrite E in H1. congruence.
  - intros r Hr. apply in_merge_di_mean in Hr as [_ Hq].
    assert (Hs : is_Some (groupby_SEQN_bp_mean
                            (loc_bpt bpt "DI" (dx_derived sort_values_by_SEQN df))
                          !! SEQN r)) by (eexists; exact Hq).
    apply groupby_mean_is_Some in Hs as (r0 & Hin & Hs & _).
    apply List.filter_In in Hin as [Hin Ht]. apply String.eqb_eq in Ht.
    exists (mkDxm r0 (di_mean r)). cbn. split; [|auto].
    apply in_merge_di_mean. cbn. split; [assumption|]. now rewrite Hs.
Qed.

Lemma merge_di_mean_sublist (dx : list dx_row) (means : gmap Z Q) :
  map obs (merge_di_mean dx means) `sublist_of` dx.
Proof.
  unfold merge_di_mean. induction dx as [|r dx IH]; [constructor|].
  cbn [omap list_omap]. fold (omap (fun r => mkDxm r <$> means !! SEQN r) dx).
  destruct (means !! SEQN r) as [q|]; cbn [fmap option_fmap option_map map].
  - now apply sublist_skip.
  - now apply sublist_cons.
Qed.

Lemma merge_di_mean_all (dx : list dx_row) (means : gmap Z Q) :
  (forall r : dx_row, In r dx -> is_Some (means !! SEQN r)) ->
  map obs (merge_di_mean dx means) = dx.
Proof.
  unfold merge_di_mean. induction dx as [|r dx IH]; intros H; [reflexivity|].
  cbn [omap list_omap]. fold (omap (fun r => mkDxm r <$> means !! SEQN r) dx).
  destruct (H r (or_introl eq_refl)) as [q Hq]. rewrite Hq.
  cbn [fmap option_fmap option_map map obs]. f_equal.
  apply IH. intros r' Hr'. apply H. now right.
Qed.

(** X11. The join with the diastolic means only removes rows: without the
    added column the joined table is an ordered selection of the table it
    started from, and it keeps every row when each subject has a diastolic
    reading. *)
Theorem join_selects_rows
    (sort_values_by_SEQN : list long_row -> list long_row) (df : list wide_row) :
  map obs (dx_joined sort_values_by_SEQN df)
    `sublist_of` dx_derived sort_values_by_SEQN df /\
  ((forall r : dx_row,
       In r (dx_derived sort_values_by_SEQN df) ->
       exists r' : dx_row,
         In r' (dx_derived sort_values_by_SEQN df) /\
         SEQN r' = SEQN r /\ bpt r' = "DI"%string /\ bp r' <> None) ->
   map obs (dx_joined sort_values_by_SEQN df) = dx_derived sort_values_by_SEQN df).
Proof.
  split; [apply merge_di_mean_sublist|].
  intros H. apply merge_di_mean_all. intros r Hr.
  apply groupby_mean_is_Some. destruct (H r Hr) as (r' & Hin & Hs & Ht & Hb).
  exists r'. split; [|auto]. apply List.filter_In. split; [assumption|].
  now apply String.eqb_eq.
Qed.

Lemma melt_length (df : list wide_row) : length (melt df) = (8 * length df)%nat.
Proof.
  rewrite melt_by_rows, vvars_names. cbn [flat_map].
  rewrite !length_app, !length_map. simpl. lia.
Qed.

Lemma dx_joined_length
    (sort_values_by_SEQN : list long_row -> list long_row) (df : list wide_row) :
  (forall l, Permutation (sort_values_by_SEQN l) l) ->
  (length (dx_joined sort_values_by_SEQN df) <= 8 * length df)%nat.
Proof.
  intros Hperm.
  assert (H1 := sublist_length _ _ (merge_di_mean_sublist
                  (dx_derived sort_values_by_SEQN df)
                  (di_mean_series sort_values_by_SEQN df))).
  rewrite length_map in H1. fold (dx_joined sort_values_by_SEQN df) in H1.
  unfold dx_derived in H1. rewrite length_map in H1.
  assert (H2 := Permutation_length (dx_filtered_permutation _ Hperm df)).
  unfold dropna in H2.
  assert (H3 := List.filter_length_le notna (melt df)).
  assert (H4 := melt_length df). lia.
Qed.

(** X12. The joined table has at most eight rows per wide row, so for a
    wide table of at most 625 rows the cut at 5000 rows removes nothing and
    [model1] is fitted on the whole joined table. *)
Theorem small_tables_are_not_truncated
    (sort_values_by_SEQN : list long_row -> list long_row) (df : list wide_row) :
  (forall l, Permutation (sort_values_by_SEQN l) l) ->
  (length (dx_joined sort_values_by_SEQN df) <= 8 * length df)%nat /\
  ((length df <= 625)%nat ->
   dx_final sort_values_by_SEQN df = dx_joined sort_values_by_SEQN df /\
   model_frame sort_values_by_SEQN model1 df = dx_joined sort_values_by_SEQN df).
Proof.
  intros Hperm. assert (H := dx_joined_length _ df Hperm).
  split; [exact H|]. intros Hn.
  assert (E : dx_final sort_values_by_SEQN df = dx_joined sort_values_by_SEQN df).
  { unfold dx_final, iloc_0_5000. apply take_ge. lia. }
  split; [exact E|]. unfold model_frame. now rewrite E.
Qed.

(** *** Rows per subject *)

Lemma block_count (s : Z) (t c : string) (df : list wide_row) :
  (length (List.filter (fun r : dx_row => (SEQN r =? s)%Z)
             (loc_bpt bpt t
                (map add_derived
                   (List.filter notna (map (fun w => long_of w c) df)))))
   <= if String.eqb (String.substring 3 2 c) t
      then length (List.filter (fun w => (df_SEQN w =? s)%Z) df)
      else 0)%nat.
Proof.
  unfold loc_bpt. induction df as [|w df IH]; [simpl; destruct (String.eqb _ _); lia|].
  cbn [map List.filter]. destruct (notna (long_of w c)); [|
    destruct (String.eqb _ _), (df_SEQN w =? s)%Z; cbn [length]; lia].
  cbn [map List.filter add_derived long_of bpt bpvar base].
  destruct (String.eqb (String.substring 3 2 c) t); [|exact IH].
  cbn [List.filter]. change (SEQN (add_derived (long_of w c))) with (df_SEQN w).
  destruct (df_SEQN w =? s)%Z; cbn [length]; lia.
Qed.

Lemma subject_count_unsorted (s : Z) (t : string) (df : list wide_row) :
  t = "SY"%string \/ t = "DI"%string ->
  (length (List.filter (fun r : dx_row => (SEQN r =? s)%Z)
             (loc_bpt bpt t (dx_derived (fun l => l) df)))
   <= 4 * length (List.filter (fun w => (df_SEQN w =? s)%Z) df))%nat.
Proof.
  intros Ht. unfold dx_derived, dx_filtered, dropna.
  rewrite melt_by_rows, vvars_names. cbn [flat_map]. rewrite app_nil_r.
  unfold loc_bpt.
  repeat first [rewrite List.filter_app | rewrite map_app | rewrite length_app].
  assert (B := fun c => block_count s t c df). unfold loc_bpt in B.
  assert (B1 := B "BPXSY1"%string). assert (B2 := B "BPXSY2"%string).
  assert (B3 := B "BPXSY3"%string). assert (B4 := B "BPXSY4"%string).
  assert (B5 := B "BPXDI1"%string). assert (B6 := B "BPXDI2"%string).
  assert (B7 := B "BPXDI3"%string). assert (B8 := B "BPXDI4"%string).
  clear B.
  destruct Ht as [-> | ->];
    cbn [String.substring String.eqb Ascii.eqb Bool.eqb] in B1, B2, B3, B4, B5, B6, B7, B8;
    lia.
Qed.

(** X13. A subject has at most four systolic and at most four diastolic rows
    per wide row carrying its id in the table with derived columns; with
    subject ids unique in the wide table, at most four of each. *)
Theorem at_most_four_readings_per_type
    (sort_values_by_SEQN : list long_row -> list long_row) (df : list wide_row) (s : Z) :
  (forall l, Permutation (sort_values_by_SEQN l) l) ->
  let rows_of t :=
    List.filter (fun r : dx_row => (SEQN r =? s)%Z)
                (loc_bpt bpt t (dx_derived sort_values_by_SEQN df)) in
  let wide := List.filter (fun w => (df_SEQN w =? s)%Z) df in
  (length (rows_of "SY"%string) <= 4 * length wide)%nat /\
  (length (rows_of "DI"%string) <= 4 * length wide)%nat.
Proof.
  intros Hperm rows_of wide.
  assert (P : forall t, Permutation (rows_of t)
                (List.filter (fun r : dx_row => (SEQN r =? s)%Z)
                   (loc_bpt bpt t (dx_derived (fun l => l) df)))).
  { intros t. unfold rows_of, loc_bpt.
    apply filter_permutation, filter_permutation. now apply dx_derived_permutation. }
  split.
  - rewrite (Permutation_length (P "SY"%string)). apply subject_count_unsorted. now left.
  - rewrite (Permutation_length (P "DI"%string)). apply subject_count_unsorted. now right.
Qed.

(** *** Ties in the sort *)

(** X15. Whatever order the sort gives rows with equal subject ids, the
    subject-id column of the truncated table, and so its number of rows and
    the subject at which the cut falls, is the same. *)
Theorem subjects_do_not_depend_on_tie_order
    (sort1 sort2 : list long_row -> list long_row) (df : list wide_row) :
  (forall l, Permutation (sort1 l) l) ->
  (forall l, Sorted (fun a b => (SEQN a <= SEQN b)%Z) (sort1 l)) ->
  (forall l, Permutation (sort2 l) l) ->
  (forall l, Sorted (fun a b => (SEQN a <= SEQN b)%Z) (sort2 l)) ->
  map (fun r : dxm_row => SEQN r) (dx_final sort1 df) =
  map (fun r : dxm_row => SEQN r) (dx_final sort2 df) /\
  length (dx_final sort1 df) = length (dx_final sort2 df).
Proof.
  intros P1 S1 P2 S2.
  assert (E : map (fun r : dxm_row => SEQN r) (dx_final sort1 df) =
              map (fun r : dxm_row => SEQN r) (dx_final sort2 df)).
  { unfold dx_final, iloc_0_5000. rewrite <- !firstn_map.
    now rewrite (joined_keys_unique sort1 sort2 df P1 S1 P2 S2). }
  split; [exact E|].
  apply (f_equal (@length Z)) in E. now rewrite !length_map in E.
Qed.

(** *** The group-by mean on any table *)

(** X16. For a key that, if it occurs in the table at all, has at least one
    non-missing value, the group-by mean has an entry exactly when the key
    occurs, and the entry is the sum of the key's non-missing values over
    their number: missing values are skipped, not counted.  (A key all of
    whose values are missing is kept by pandas with a missing mean; the
    series here has no entry for it.  The notebook groups after [dropna],
    where no value is missing.) *)
Theorem groupby_mean_skips_missing (rows : list dx_row) (s : Z) :
  (forall r : dx_row, In r rows -> SEQN r = s ->
     exists r' : dx_row, In r' rows /\ SEQN r' = s /\ bp r' <> None) ->
  let vs := omap (fun r : dx_row => bp r)
                 (List.filter (fun r : dx_row => (SEQN r =? s)%Z) rows) in
  (is_Some (groupby_SEQN_bp_mean rows !! s) <->
   exists r : dx_row, In r rows /\ SEQN r = s) /\
  (forall q, groupby_SEQN_bp_mean rows !! s = Some q ->
             vs <> [] /\ (q == Qsum vs / inject_Z (Z.of_nat (length vs)))%Q).
Proof.
  intros Hkey vs. split.
  - rewrite groupby_mean_is_Some. split.
    + intros (r & Hr & Hs & _). now exists r.
    + intros (r & Hr & Hs). exact (Hkey r Hr Hs).
  - intros q Hq. assert (H := groupby_mean_lookup rows s). cbv zeta in H.
    fold vs in H. rewrite Hq in H. exact H.
Qed.

(** *** Merging the three extracts *)

Lemma in_merge_inner {A B} (kl : A -> Z) (kr : B -> Z) (l : list A) (r : list B)
    (a : A) (b : B) :
  In (a, b) (merge_inner kl kr l r) <-> In a l /\ In b r /\ kr b = kl a.
Proof.
  unfold merge_inner. rewrite List.in_flat_map. split.
  - intros (a' & Ha & H). apply List.in_map_iff in H as (b' & E & Hb).
    injection E as -> ->. apply List.filter_In in Hb as [Hb Hk].
    apply Z.eqb_eq in Hk. auto.
  - intros (Ha & Hb & Hk). exists a. split; [assumption|].
    apply List.in_map. apply List.filter_In. split; [assumption|].
    now apply Z.eqb_eq.
Qed.

Lemma in_merge_extracts (demog : list demog_row) (bpx : list bpx_row)
    (bmx : list bmx_row) (w : wide_row) :
  In w (merge_extracts demog bpx bmx) <->
  exists d b m,
    In d demog /\ In b bpx /\ In m bmx /\
    bpx_SEQN b = demog_SEQN d /\ bmx_SEQN m = demog_SEQN d /\
    w = wide_of (d, b, m).
Proof.
  unfold merge_extracts. rewrite List.in_map_iff. split.
  - intros ([[d b] m] & <- & H).
    apply in_merge_inner in H as (H & Hm & Km). cbn [fst] in Km.
    apply in_merge_inner in H as (Hd & Hb & Kb).
    exists d, b, m. auto 10.
  - intros (d & b & m & Hd & Hb & Hm & Kb & Km & ->).
    exists (d, b, m). split; [reflexivity|].
    apply in_merge_inner. cbn [fst]. split; [|auto].
    apply in_merge_inner. auto.
Qed.

(** X17. The merged wide table holds exactly the subject ids present in all
    three extracts, and each of its rows takes age and sex from a demographics
    row, the readings from a blood-pressure row and the BMI from a
    body-measures row of that subject. *)
Theorem merge_extracts_keeps_common_subjects
    (demog : list demog_row) (bpx : list bpx_row) (bmx : list bmx_row) :
  (forall s : Z,
      In s (map df_SEQN (merge_extracts demog bpx bmx)) <->
      In s (map demog_SEQN demog) /\ In s (map bpx_SEQN bpx) /\
      In s (map bmx_SEQN bmx)) /\
  (forall w : wide_row,
      In w (merge_extracts demog bpx bmx) ->
      exists d b m,
        In d demog /\ In b bpx /\ In m bmx /\
        demog_SEQN d = df_SEQN w /\ bpx_SEQN b = df_SEQN w /\
        bmx_SEQN m = df_SEQN w /\
        df_RIDAGEYR w = demog_RIDAGEYR d /\ df_RIAGENDR w = demog_RIAGENDR d /\
        df_BMXBMI w = bmx_BMXBMI m /\
        (forall c, column c w = column c (wide_of (d, b, m)))).
Proof.
  split.
  - intros s. rewrite !List.in_map_iff. split.
    + intros (w & <- & Hw). apply in_merge_extracts in Hw
        as (d & b & m & Hd & Hb & Hm & Kb & Km & ->).
      cbn. split; [now exists d|]. split; [now exists b | now exists m].
    + intros ((d & <- & Hd) & (b & Kb & Hb) & (m & Km & Hm)).
      exists (wide_of (d, b, m)). split; [reflexivity|].
      apply in_merge_extracts. exists d, b, m. auto 10.
  - intros w Hw. apply in_merge_extracts in Hw
      as (d & b & m & Hd & Hb & Hm & Kb & Km & ->).
    exists d, b, m. cbn. auto 12.
Qed.

Lemma unique_match {B} (kr : B -> Z) (r : list B) (k : Z) :
  List.NoDup (map kr r) ->
  (length (List.filter (fun b => (kr b =? k)%Z) r) <= 1)%nat.
Proof.
  induction r as [|b r IH]; intros H; [simpl; lia|].
  cbn [map] in H. apply List.NoDup_cons_iff in H as [Hn H].
  cbn [List.filter]. destruct (Z.eqb_spec (kr b) k) as [E|N]; [|now apply IH].
  assert (Z0 : List.filter (fun b0 => (kr b0 =? k)%Z) r = []).
  { destruct (List.filter _ r) as [|b' l] eqn:F; [reflexivity|].
    assert (Hb' : In b' (List.filter (fun b0 => (kr b0 =? k)%Z) r))
      by (rewrite F; now left).
    apply List.filter_In in Hb' as [Hb' Hk]. apply Z.eqb_eq in Hk.
    exfalso. apply Hn. rewrite E, <- Hk. now apply List.in_map. }
  rewrite Z0. simpl. lia.
Qed.

Lemma merge_inner_keys_sublist {A B} (kl : A -> Z) (kr : B -> Z)
    (l : list A) (r : list B) :
  List.NoDup (map kr r) ->
  map (fun t : A * B => kl (fst t)) (merge_inner kl kr l r) `sublist_of` map kl l.
Proof.
  intros H. unfold merge_inner. induction l as [|a l IH]; [constructor|].
  cbn [flat_map map]. rewrite map_app, map_map. cbn [fst].
  assert (U := unique_match kr r (kl a) H).
  destruct (List.filter _ r) as [|b [|b' t]]; cbn [map app length] in *.
  - now apply sublist_cons.
  - now apply sublist_skip.
  - lia.
Qed.

(** X18. When subject ids are unique in the blood-pressure and the
    body-measures extract, the merged table has at most as many rows as the
    demographics extract.  If the ids are unique in the demographics extract
    too, the merged table lists its subjects in the order of that extract and
    its subject ids are unique. *)
Theorem merge_extracts_one_row_per_subject
    (demog : list demog_row) (bpx : list bpx_row) (bmx : list bmx_row) :
  List.NoDup (map bpx_SEQN bpx) ->
  List.NoDup (map bmx_SEQN bmx) ->
  (length (merge_extracts demog bpx bmx) <= length demog)%nat /\
  (List.NoDup (map demog_SEQN demog) ->
   map df_SEQN (merge_extracts demog bpx bmx) `sublist_of` map demog_SEQN demog /\
   List.NoDup (map df_SEQN (merge_extracts demog bpx bmx))).
Proof.
  intros Hb Hm.
  assert (S : map df_SEQN (merge_extracts demog bpx bmx)
                `sublist_of` map demog_SEQN demog).
  { unfold merge_extracts. rewrite map_map.
    etransitivity; [|apply (merge_inner_keys_sublist demog_SEQN bpx_SEQN demog bpx Hb)].
    rewrite (map_ext _ (fun t : demog_row * bpx_row * bmx_row =>
                          demog_SEQN (fst (fst t)))) by (intros [[d b] m]; reflexivity).
    apply (merge_inner_keys_sublist
             (fun t : demog_row * bpx_row => demog_SEQN (fst t)) bmx_SEQN _ bmx Hm). }
  split.
  - apply sublist_length in S. now rewrite !length_map in S.
  - intros Hd. split; [exact S|].
    apply NoDup_ListNoDup. apply NoDup_ListNoDup in Hd.
    eapply sublist_NoDup; [exact Hd | exact S].
Qed.

(** X19. From the extracts to the models: every row of every model frame
    belongs to a subject present in all three extracts and carries that
    subject's age, sex, BMI and the reading of its own measurement column. *)
Theorem frames_hold_common_subjects_only
    (sort_values_by_SEQN : list long_row -> list long_row)
    (demog : list demog_row) (bpx : list bpx_row) (bmx : list bmx_row)
    (k : model_id) (r : dxm_row) :
  (forall l, Permutation (sort_values_by_SEQN l) l) ->
  In r (model_frame sort_values_by_SEQN k (merge_extracts demog bpx bmx)) ->
  exists d b m,
    In d demog /\ In b bpx /\ In m bmx /\
    demog_SEQN d = SEQN r /\ bpx_SEQN b = SEQN r /\ bmx_SEQN m = SEQN r /\
    RIDAGEYR r = demog_RIDAGEYR d /\ RIAGENDR r = demog_RIAGENDR d /\
    BMXBMI r = bmx_BMXBMI m /\
    bp r = column (bpvar r) (wide_of (d, b, m)).
Proof.
  intros Hperm Hin.
  apply in_model_frame, in_merge_di_mean in Hin as [Hin _].
  apply (in_dx_derived_inv _ _ _ Hperm) in Hin as (w & c & Hw & _ & E & _).
  apply in_merge_extracts in Hw as (d & b & m & Hd & Hb & Hm & Kb & Km & ->).
  exists d, b, m. rewrite E. cbn. auto 12.
Qed.

(** *** The cut and the per-subject mean *)

Lemma cut_inside_block (l : list dxm_row) (s : Z) :
  map (fun r : dxm_row => SEQN r) l !! 4999%nat = Some s ->
  map (fun r : dxm_row => SEQN r) l !! 5000%nat = Some s ->
  exists r1 r2 : dxm_row,
    length (iloc_0_5000 l) = 5000%nat /\
    iloc_0_5000 l !! 4999%nat = Some r1 /\
    l !! 5000%nat = Some r2 /\
    SEQN r1 = SEQN r2.
Proof.
  intros H1 H2.
  apply lookup_key in H1 as (r1 & L1 & K1).
  apply lookup_key in H2 as (r2 & L2 & K2).
  exists r1, r2. unfold iloc_0_5000.
  assert (Hlen : (5000 < length l)%nat) by (eapply lookup_lt_Some; exact L2).
  split; [rewrite length_take; lia|].
  split; [rewrite lookup_take_lt by lia; exact L1|].
  split; [exact L2 | congruence].
Qed.

(** X21. The cut can fall inside a subject, whatever order the sort gives
    rows with equal ids: for every admissible sort there is a table on which
    the truncated table has exactly 5000 rows, and its last row and the first
    row that is left out belong to the same subject. *)
Theorem cut_can_split_a_subject
    (sort_values_by_SEQN : list long_row -> list long_row) :
  (forall l, Permutation (sort_values_by_SEQN l) l) ->
  (forall l, Sorted (fun a b => (SEQN a <= SEQN b)%Z) (sort_values_by_SEQN l)) ->
  exists (df : list wide_row) (r1 r2 : dxm_row),
    length (dx_final sort_values_by_SEQN df) = 5000%nat /\
    dx_final sort_values_by_SEQN df !! 4999%nat = Some r1 /\
    dx_joined sort_values_by_SEQN df !! 5000%nat = Some r2 /\
    SEQN r1 = SEQN r2.
Proof.
  intros sort_permutes sort_ascends.
  destruct cohort_boundary as [H1 H2].
  rewrite <- (joined_keys_unique sort_values_by_SEQN SEQNSort.sort (cohort 72)
                sort_permutes sort_ascends merge_sort_permutes merge_sort_ascends)
    in H1, H2.
  destruct (cut_inside_block _ _ H1 H2) as (r1 & r2 & H).
  exists (cohort 72), r1, r2. exact H.
Qed.

(** X22. The mean a model frame carries is computed before the cut: in every
    row of every model frame, [di_mean] is the mean of all the diastolic
    readings that the row's subject has in the filtered long table, wherever
    the rows of those readings lie relative to position 5000. *)
Theorem frame_di_mean_is_from_whole_table
    (sort_values_by_SEQN : list long_row -> list long_row) (df : list wide_row)
    (k : model_id) (r : dxm_row) :
  (forall l, Permutation (sort_values_by_SEQN l) l) ->
  In r (model_frame sort_values_by_SEQN k df) ->
  let vs := diastolic_readings (SEQN r) (dx_filtered sort_values_by_SEQN df) in
  vs <> [] /\ (di_mean r == Qsum vs / inject_Z (Z.of_nat (length vs)))%Q.
Proof.
  intros Hperm Hin vs. apply in_model_frame, in_merge_di_mean in Hin as [_ Hq].
  assert (H := groupby_mean_lookup
                 (loc_bpt bpt "DI" (dx_derived sort_values_by_SEQN df)) (SEQN r)).
  cbv zeta in H. fold (di_mean_series sort_values_by_SEQN df) in H.
  rewrite Hq in H.
  fold (subject_readings "DI" (SEQN r) (dx_derived sort_values_by_SEQN df)) in H.
  rewrite (subject_readings_filtered sort_values_by_SEQN Hperm) in H. exact H.
Qed.

(** *** The added properties on small tables *)

(** The first subject of [two_subjects] and two rows of the joined table. *)
Definition subject_1 : wide_row :=
  person 1 (Some 110%Q) (Some 112%Q) None None (Some 70%Q) (Some 74%Q) None None.

Definition row_sy1 : dxm_row := mkDxm (add_derived (long_of subject_1 "BPXSY1")) (144 # 2).
Definition row_di2 : dxm_row := mkDxm (add_derived (long_of subject_1 "BPXDI2")) (144 # 2).

(** Extracts whose merge is [two_subjects]: subject 3 has no blood-pressure
    record, subject 4 only a body-measures record. *)
Definition demo_demog : list demog_row :=
  [ mkDemog 1 (Some 30%Q) (Some 1%Q); mkDemog 2 (Some 30%Q) (Some 1%Q);
    mkDemog 3 (Some 41%Q) (Some 2%Q) ].

Definition demo_bpx : list bpx_row :=
  [ mkBpx 1 (Some 110%Q) (Some 112%Q) None None (Some 70%Q) (Some 74%Q) None None;
    mkBpx 2 (Some 120%Q) (Some 118%Q) None None None None None None ].

Definition demo_bmx : list bmx_row :=
  [ mkBmx 1 (Some 25%Q); mkBmx 2 (Some 25%Q); mkBmx 4 (Some 22%Q) ].

(** Merge sort applied to the reversed table: another admissible sort. *)
Definition sort_reversed (l : list long_row) : list long_row := SEQNSort.sort (rev l).

Lemma sort_reversed_permutes (l : list long_row) : Permutation (sort_reversed l) l.
Proof.
  unfold sort_reversed. etransitivity; [apply merge_sort_permutes|].
  symmetry. apply Permutation_rev.
Qed.

Lemma sort_reversed_ascends (l : list long_row) :
  Sorted (fun a b => (SEQN a <= SEQN b)%Z) (sort_reversed l).
Proof. apply merge_sort_ascends. Qed.

Lemma demo_merge : merge_extracts demo_demog demo_bpx demo_bmx = two_subjects.
Proof. reflexivity. Qed.

Lemma row_sy1_in_model2 : In row_sy1 (model_frame SEQNSort.sort model2 two_subjects).
Proof. vm_compute. left. reflexivity. Qed.

Lemma frame_rows_trace_to_wide_rows_witness :
  In row_sy1 (model_frame SEQNSort.sort model2 two_subjects) /\
  exists w c,
    In w two_subjects /\ In c vvars /\ obs row_sy1 = add_derived (long_of w c) /\
    df_RIDAGEYR w <> None /\ df_RIAGENDR w <> None /\ df_BMXBMI w <> None /\
    column c w <> None /\
    di_mean_series SEQNSort.sort two_subjects !! df_SEQN w = Some (di_mean row_sy1).
Proof.
  split; [exact row_sy1_in_model2|].
  exact (frame_rows_trace_to_wide_rows SEQNSort.sort two_subjects model2 row_sy1
           merge_sort_permutes row_sy1_in_model2).
Defined.

Lemma derived_columns_well_formed_witness :
  In row_sy1 (model_frame SEQNSort.sort model2 two_subjects) /\
  bpt row_sy1 = "SY"%string /\ bpi row_sy1 = 1%Z /\
  bpvar row_sy1 = ("BPX" +:+ bpt row_sy1 +:+ pretty (bpi row_sy1))%string.
Proof.
  split; [exact row_sy1_in_model2|].
  split; [reflexivity|]. split; [reflexivity|].
  exact (proj1 (proj2 (proj2
    (derived_columns_well_formed SEQNSort.sort two_subjects model2 row_sy1
       merge_sort_permutes row_sy1_in_model2)))).
Defined.

Lemma systolic_and_diastolic_frames_partition_witness :
  (length (model_frame SEQNSort.sort model2 two_subjects)
   + length (model_frame SEQNSort.sort model4 two_subjects)
   = length (model_frame SEQNSort.sort model1 two_subjects))%nat.
Proof.
  exact (proj1 (systolic_and_diastolic_frames_partition SEQNSort.sort two_subjects
                  merge_sort_permutes)).
Defined.

Lemma indicator_columns_witness :
  In row_sy1 (model_frame SEQNSort.sort model2 two_subjects) /\
  (sy row_sy1 + di row_sy1 = 1)%Z /\
  (sy1 row_sy1 + sy2 row_sy1 + sy3 row_sy1
   = if (bpi row_sy1 =? 4)%Z then 0 else sy row_sy1)%Z.
Proof.
  split; [exact row_sy1_in_model2|].
  assert (H := indicator_columns SEQNSort.sort two_subjects model2 row_sy1
                 merge_sort_permutes row_sy1_in_model2).
  split; [exact (proj1 H) | exact (proj1 (proj2 H))].
Defined.

Lemma dx_final_ascending_witness :
  StronglySorted Z.le
    (map (fun r : dxm_row => SEQN r) (dx_final SEQNSort.sort (cohort 72))).
Proof.
  exact (proj1 (dx_final_ascending SEQNSort.sort (cohort 72)
                  merge_sort_permutes merge_sort_ascends)).
Defined.

Lemma row_sy1_in_joined : In row_sy1 (dx_joined SEQNSort.sort two_subjects).
Proof. vm_compute. left. reflexivity. Qed.

Lemma row_di2_in_joined : In row_di2 (dx_joined SEQNSort.sort two_subjects).
Proof. vm_compute. do 3 right. left. reflexivity. Qed.

Lemma di_mean_is_subject_level_witness :
  In row_sy1 (dx_joined SEQNSort.sort two_subjects) /\
  In row_di2 (dx_joined SEQNSort.sort two_subjects) /\
  SEQN row_sy1 = SEQN row_di2 /\ di_mean row_sy1 = di_mean row_di2.
Proof.
  split; [exact row_sy1_in_joined|]. split; [exact row_di2_in_joined|].
  split; [reflexivity|].
  exact (proj1 (di_mean_is_subject_level SEQNSort.sort two_subjects)
           row_sy1 row_di2 row_sy1_in_joined row_di2_in_joined eq_refl).
Defined.

Lemma join_selects_rows_witness :
  map obs (dx_joined SEQNSort.sort [subject_1]) = dx_derived SEQNSort.sort [subject_1].
Proof.
  apply (proj2 (join_selects_rows SEQNSort.sort [subject_1])).
  intros r Hr. exists (add_derived (long_of subject_1 "BPXDI1")).
  split; [vm_compute; do 2 right; left; reflexivity|].
  vm_compute in Hr.
  destruct Hr as [<-|[<-|[<-|[<-|[]]]]]; repeat split; discriminate.
Defined.

Lemma small_tables_are_not_truncated_witness :
  (length two_subjects <= 625)%nat /\
  dx_final SEQNSort.sort two_subjects = dx_joined SEQNSort.sort two_subjects.
Proof.
  assert (H : (length two_subjects <= 625)%nat) by (cbn [length two_subjects]; lia).
  split; [exact H|].
  exact (proj1 (proj2 (small_tables_are_not_truncated SEQNSort.sort two_subjects
                         merge_sort_permutes) H)).
Defined.

Lemma at_most_four_readings_per_type_witness :
  (length (List.filter (fun r : dx_row => (SEQN r =? 1)%Z)
             (loc_bpt bpt "SY" (dx_derived SEQNSort.sort two_subjects)))
   <= 4 * length (List.filter (fun w => (df_SEQN w =? 1)%Z) two_subjects))%nat.
Proof.
  exact (proj1 (at_most_four_readings_per_type SEQNSort.sort two_subjects 1%Z
                  merge_sort_permutes)).
Defined.

Lemma subjects_do_not_depend_on_tie_order_witness :
  map (fun r : dxm_row => SEQN r) (dx_final SEQNSort.sort (cohort 72)) =
  map (fun r : dxm_row => SEQN r) (dx_final sort_reversed (cohort 72)).
Proof.
  exact (proj1 (subjects_do_not_depend_on_tie_order SEQNSort.sort sort_reversed
                  (cohort 72) merge_sort_permutes merge_sort_ascends
                  sort_reversed_permutes sort_reversed_ascends)).
Defined.

Lemma groupby_mean_skips_missing_witness :
  groupby_SEQN_bp_mean (map add_derived (melt two_subjects)) !! 1%Z = Some (366 # 4) /\
  (366 # 4 ==
   Qsum [110; 112; 70; 74] / inject_Z (Z.of_nat (length [110%Q; 112%Q; 70%Q; 74%Q])))%Q.
Proof.
  assert (E : groupby_SEQN_bp_mean (map add_derived (melt two_subjects)) !! 1%Z
              = Some (366 # 4)) by (vm_compute; reflexivity).
  assert (K : forall r : dx_row,
             In r (map add_derived (melt two_subjects)) -> SEQN r = 1%Z ->
             exists r' : dx_row,
               In r' (map add_derived (melt two_subjects)) /\ SEQN r' = 1%Z /\
               bp r' <> None).
  { intros _ _ _. exists (add_derived (long_of subject_1 "BPXSY1")).
    split; [vm_compute; left; reflexivity|]. split; [reflexivity | discriminate]. }
  split; [exact E|].
  exact (proj2 (proj2 (groupby_mean_skips_missing
                         (map add_derived (melt two_subjects)) 1%Z K) (366 # 4) E)).
Defined.

Lemma merge_extracts_keeps_common_subjects_witness :
  In subject_1 (merge_extracts demo_demog demo_bpx demo_bmx) /\
  (In 3%Z (map df_SEQN (merge_extracts demo_demog demo_bpx demo_bmx)) <->
   In 3%Z (map demog_SEQN demo_demog) /\ In 3%Z (map bpx_SEQN demo_bpx) /\
   In 3%Z (map bmx_SEQN demo_bmx)) /\
  exists d b m,
    In d demo_demog /\ In b demo_bpx /\ In m demo_bmx /\
    demog_SEQN d = df_SEQN subject_1 /\ bpx_SEQN b = df_SEQN subject_1 /\
    bmx_SEQN m = df_SEQN subject_1 /\
    df_RIDAGEYR subject_1 = demog_RIDAGEYR d /\
    df_RIAGENDR subject_1 = demog_RIAGENDR d /\
    df_BMXBMI subject_1 = bmx_BMXBMI m /\
    (forall c, column c subject_1 = column c (wide_of (d, b, m))).
Proof.
  assert (H : In subject_1 (merge_extracts demo_demog demo_bpx demo_bmx))
    by (left; reflexivity).
  destruct (merge_extracts_keeps_common_subjects demo_demog demo_bpx demo_bmx)
    as [K R].
  split; [exact H|]. split; [exact (K 3%Z) | exact (R subject_1 H)].
Defined.

Lemma merge_extracts_one_row_per_subject_witness :
  List.NoDup (map bpx_SEQN demo_bpx) /\ List.NoDup (map bmx_SEQN demo_bmx) /\
  List.NoDup (map demog_SEQN demo_demog) /\
  (length (merge_extracts demo_demog demo_bpx demo_bmx) <= length demo_demog)%nat /\
  List.NoDup (map df_SEQN (merge_extracts demo_demog demo_bpx demo_bmx)).
Proof.
  assert (Hb : List.NoDup (map bpx_SEQN demo_bpx)).
  { repeat constructor; cbn; intuition discriminate. }
  assert (Hm : List.NoDup (map bmx_SEQN demo_bmx)).
  { repeat constructor; cbn; intuition discriminate. }
  assert (Hd : List.NoDup (map demog_SEQN demo_demog)).
  { repeat constructor; cbn; intuition discriminate. }
  split; [exact Hb|]. split; [exact Hm|]. split; [exact Hd|].
  split.
  - exact (proj1 (merge_extracts_one_row_per_subject demo_demog demo_bpx
                    demo_bmx Hb Hm)).
  - exact (proj2 (proj2 (merge_extracts_one_row_per_subject demo_demog demo_bpx
                           demo_bmx Hb Hm) Hd)).
Defined.

Lemma row_sy1_in_merged_frame :
  In row_sy1 (model_frame SEQNSort.sort model2
                (merge_extracts demo_demog demo_bpx demo_bmx)).
Proof. vm_compute. left. reflexivity. Qed.

Lemma frames_hold_common_subjects_only_witness :
  In row_sy1 (model_frame SEQNSort.sort model2
                (merge_extracts demo_demog demo_bpx demo_bmx)) /\
  exists d b m,
    In d demo_demog /\ In b demo_bpx /\ In m demo_bmx /\
    demog_SEQN d = SEQN row_sy1 /\ bpx_SEQN b = SEQN row_sy1 /\
    bmx_SEQN m = SEQN row_sy1 /\
    RIDAGEYR row_sy1 = demog_RIDAGEYR d /\ RIAGENDR row_sy1 = demog_RIAGENDR d /\
    BMXBMI row_sy1 = bmx_BMXBMI m /\
    bp row_sy1 = column (bpvar row_sy1) (wide_of (d, b, m)).
Proof.
  split; [exact row_sy1_in_merged_frame|].
  exact (frames_hold_common_subjects_only SEQNSort.sort demo_demog demo_bpx demo_bmx
           model2 row_sy1 merge_sort_permutes row_sy1_in_merged_frame).
Defined.

Lemma cut_can_split_a_subject_witness :
  (forall l, Permutation (SEQNSort.sort l) l) /\
  (forall l, Sorted (fun a b => (SEQN a <= SEQN b)%Z) (SEQNSort.sort l)) /\
  exists (df : list wide_row) (r1 r2 : dxm_row),
    length (dx_final SEQNSort.sort df) = 5000%nat /\
    dx_final SEQNSort.sort df !! 4999%nat = Some r1 /\
    dx_joined SEQNSort.sort df !! 5000%nat = Some r2 /\
    SEQN r1 = SEQN r2.
Proof.
  split; [exact merge_sort_permutes|]. split; [exact merge_sort_ascends|].
  exact (cut_can_split_a_subject SEQNSort.sort merge_sort_permutes merge_sort_ascends).
Defined.

Lemma frame_di_mean_is_from_whole_table_witness :
  In row_sy1 (model_frame SEQNSort.sort model2 two_subjects) /\
  (di_mean row_sy1 == Qsum [70; 74] / inject_Z (Z.of_nat (length [70%Q; 74%Q])))%Q.
Proof.
  split; [exact row_sy1_in_model2|].
  exact (proj2 (frame_di_mean_is_from_whole_table SEQNSort.sort two_subjects model2
                  row_sy1 merge_sort_permutes row_sy1_in_model2)).
Defined.

(** *** Intraclass correlation *)

Local Open Scope Q_scope.

(** C8. For a random-intercept fit with variance [v] and residual scale [s],
    both non-negative and with positive sum, the printed intraclass
    correlation is [v / (v + s)] and lies between 0 and 1. *)
Theorem icc_in_unit_interval (v s : Q) :
  0 <= v -> 0 <= s -> 0 < v + s ->
  exists q, flat_0 (icc [[v]] s) = Some q /\ q == v / (v + s) /\ 0 <= q /\ q <= 1.
Proof.
  intros Hv Hs Hpos. exists (v / (v + s)). split; [reflexivity|].
  split; [reflexivity|]. split.
  - apply Qle_shift_div_l; [assumption | lra].
  - apply Qle_shift_div_r; [assumption | lra].
Qed.

(** The second model of the notebook: variance 206.352, scale 16.2140. *)
Lemma icc_in_unit_interval_witness :
  0 <= 206352 # 1000 /\ 0 <= 16214 # 1000 /\
  exists q, flat_0 (icc [[206352 # 1000]] (16214 # 1000)) = Some q /\
            q == (206352 # 1000) / ((206352 # 1000) + (16214 # 1000)) /\
            0 <= q /\ q <= 1.
Proof.
  assert (Hv : 0 <= 206352 # 1000) by (vm_compute; discriminate).
  assert (Hs : 0 <= 16214 # 1000) by (vm_compute; discriminate).
  assert (Hp : 0 < (206352 # 1000) + (16214 # 1000)) by (vm_compute; reflexivity).
  split; [exact Hv|]. split; [exact Hs|].
  exact (icc_in_unit_interval (206352 # 1000) (16214 # 1000) Hv Hs Hp).
Defined.

End NhanesFacts.
